(** * Hex grid range highlighting (boardgame.io, [src/ui/hex.js])

    A shallow embedding of the [HexGrid] and [Hex] React components:
    the cube-coordinate range query [_getNearGrids], the colour map
    built from it by [getLimitNeighbors], the click and hover handlers of
    [HexGrid], its outline [_getGrid] with the cell colours and the view
    box of [render], and the centre and vertex computations of [Hex].
    The earlier revision of the component (without range highlighting)
    is embedded in module [HexGridV1].

    Conventions of the embedding.
    - JavaScript numbers that hold integers are modelled by [Z].  The
      modules [HexGrid] and [HexGridV1] compute on the exact integers;
      [HexGridDouble] and [HexGridV1Double] round every sum and
      difference to the nearest double, as the language does, and agree
      with the exact modules while magnitudes stay below 2^53.  [-0] and
      [0] are both printed as "0" by a template literal, so identifying
      them does not change any key.
    - A JavaScript object used as a dictionary ([colorMap]) is a
      [gmap string string].
    - A component is its props (read-only during an event), its state and
      the trace of external callbacks an event handler invokes.
    - The vertex computation is on doubles, each a pair [(m, e)] of
      integers standing for [m * 2^e], with the product and the reading
      of a decimal rounded to 53 significant bits. *)

From Stdlib Require Import ZArith Lia Reals Lra Ascii String.
From stdpp Require Import base gmap strings pretty list list_numbers.

Set Warnings "-clear-no-such-hyp".
Local Open Scope Z_scope.

(** ** JavaScript values *)

(** The values that the coordinate fields can hold: [undefined] (a
    property that is absent), [NaN], or an integer-valued number. *)
Inductive jsval :=
| JUndefined
| JNaN
| JNum (n : Z).

Global Instance jsval_eq_dec : EqDecision jsval.
Proof. solve_decision. Defined.

(** [ToNumber] of the language: [undefined] becomes [NaN]. *)
Definition ToNumber (v : jsval) : jsval :=
  match v with
  | JUndefined => JNaN
  | _ => v
  end.

(** Binary [+] and [-] and unary [-] on numbers. *)
Definition jadd (a b : jsval) : jsval :=
  match ToNumber a, ToNumber b with
  | JNum m, JNum n => JNum (m + n)
  | _, _ => JNaN
  end.

Definition jsub (a b : jsval) : jsval :=
  match ToNumber a, ToNumber b with
  | JNum m, JNum n => JNum (m - n)
  | _, _ => JNaN
  end.

Definition jneg (a : jsval) : jsval :=
  match ToNumber a with
  | JNum m => JNum (- m)
  | _ => JNaN
  end.

(** ** Double arithmetic

    JavaScript numbers are IEEE doubles.  [jadd], [jsub] and [jneg] above
    compute on the exact integers; the operators of the language return
    the double nearest to the exact result, which is the exact result
    while its magnitude stays below 2^53 (see [round_exact]).

    [Double.round n] is the double nearest to the integer [n], a tie
    going to the even significand: from 2^53 on, doubles are spaced
    [2 ^ (log2 |n| - 52)] apart.  Overflow to [Infinity] (at 2^1024) is
    outside the model. *)
Module Double.

Definition round (n : Z) : Z :=
  let e := Z.log2 (Z.abs n) - 52 in
  if e <=? 0 then n
  else
    let u := 2 ^ e in
    let q := n / u in
    let r := n mod u in
    let h := 2 ^ (e - 1) in
    if r <? h then q * u
    else if h <? r then (q + 1) * u
    else if Z.even q then q * u else (q + 1) * u.

Definition add (a b : jsval) : jsval :=
  match ToNumber a, ToNumber b with
  | JNum m, JNum n => JNum (round (m + n))
  | _, _ => JNaN
  end.

Definition sub (a b : jsval) : jsval :=
  match ToNumber a, ToNumber b with
  | JNum m, JNum n => JNum (round (m - n))
  | _, _ => JNaN
  end.

(** Negation is exact. *)
Definition neg (a : jsval) : jsval :=
  match ToNumber a with
  | JNum m => JNum (- m)
  | _ => JNaN
  end.

End Double.

(** What a template literal [`${v}`] prints.  An integer is printed in
    full decimal, as the language does for magnitudes up to 2^53. *)
Definition ToString (v : jsval) : string :=
  match v with
  | JUndefined => "undefined"
  | JNaN => "NaN"
  | JNum n => pretty n
  end.

(** ** Objects *)

(** The fields [x], [y], [z] of an object. *)
Record Grid := XYZ { x_of : jsval; y_of : jsval; z_of : jsval }.

Global Instance Grid_eq_dec : EqDecision Grid.
Proof. solve_decision. Defined.

(** The objects the component handles: an object literal [{x, y, z}] (the
    argument of a click, the props of a token, an entry of a result
    list), a React element (whose coordinates live under [.props]; the
    element itself has no [x], [y], [z]), or an array of elements. *)
Inductive JsObject :=
| Obj (g : Grid)
| Element (props : Grid)
| ElementArray (es : list Grid).

Global Instance JsObject_eq_dec : EqDecision JsObject.
Proof. solve_decision. Defined.

Definition field_x (o : JsObject) : jsval :=
  match o with Obj g => x_of g | _ => JUndefined end.
Definition field_y (o : JsObject) : jsval :=
  match o with Obj g => y_of g | _ => JUndefined end.
Definition field_z (o : JsObject) : jsval :=
  match o with Obj g => z_of g | _ => JUndefined end.

(** [o.props]: defined on an element only ([None] is [undefined]). *)
Definition field_props (o : JsObject) : option JsObject :=
  match o with Element p => Some (Obj p) | _ => None end.

(** An integer cube coordinate, as the object [{x, y, z}]. *)
Definition coord (a b c : Z) : JsObject := Obj (XYZ (JNum a) (JNum b) (JNum c)).

(** The key [`${grid.x},${grid.y},${grid.z}`]. *)
Definition key_of (grid : JsObject) : string :=
  ToString (field_x grid) +:+ "," +:+ ToString (field_y grid)
    +:+ "," +:+ ToString (field_z grid).

(** Character classes of keys: every character of a string satisfies
    [P]; the characters of a decimal numeral; anything but the comma. *)
Fixpoint all_chars (P : ascii → bool) (s : string) : bool :=
  match s with
  | EmptyString => true
  | String c s' => P c && all_chars P s'
  end.

Definition is_num_char (c : ascii) : bool :=
  match c with
  | "0" | "1" | "2" | "3" | "4" | "5" | "6" | "7" | "8" | "9" | "-" => true
  | _ => false
  end%char.

Definition not_comma (c : ascii) : bool := negb (Ascii.eqb c ",").

(** Values visited by [for (let i = lo; i < hi; i++)]. *)
Definition for_lt (lo hi : Z) : list Z := seqZ lo (hi - lo).

(** Outcome of code that may throw. *)
Inductive result (A : Type) :=
| Ok (a : A)
| TypeError.
Arguments Ok {A} a.
Arguments TypeError {A}.

(** Sequencing of code that may throw, and a loop whose body may throw. *)
Definition result_bind {A B} (r : result A) (k : A → result B) : result B :=
  match r with
  | Ok a => k a
  | TypeError => TypeError
  end.

Fixpoint result_foldl {A B} (body : A → B → result A) (acc : A) (l : list B)
    : result A :=
  match l with
  | [] => Ok acc
  | b :: l' => result_bind (body acc b) (λ acc', result_foldl body acc' l')
  end.

(** Values visited by [for (let i = lo; i <= hi; i++)]. *)
Definition for_le (lo hi : Z) : list Z := seqZ lo (hi + 1 - lo).

(** External callbacks are opaque; an invocation is recorded. *)
Inductive Callback := Fn (id : nat).
Inductive Call := Invoke (f : Callback) (arg : JsObject).

Global Instance Callback_eq_dec : EqDecision Callback.
Proof. solve_decision. Defined.
Global Instance Call_eq_dec : EqDecision Call.
Proof. solve_decision. Defined.

(** Modelled from the spec: hexDistance, which the source does not
    define: [(|a.x-b.x| + |a.y-b.y| + |a.z-b.z|) / 2]. *)
Definition hexDistance (a b : Z * Z * Z) : Z :=
  let '(ax, ay, az) := a in
  let '(bx, by_, bz) := b in
  (Z.abs (ax - bx) + Z.abs (ay - by_) + Z.abs (az - bz)) / 2.

(** ** The component with range highlighting ([src/ui/hex.js]) *)
Module HexGrid.

(** The props the modelled methods read.  [range] has the default 3 and
    [colorMap] the default [{}]. *)
Record Props := {
  colorMap_prop : gmap string string;
  range : Z;
  onClick_prop : option Callback;
  onMouseOver_prop : option Callback;
  onMouseOut_prop : option Callback;
  children : option JsObject;
}.

(** [this.state]; [None] is a [colorMap] set to [undefined]. *)
Record State := { colorMap : option (gmap string string) }.

Definition constructor (p : Props) : State :=
  {| colorMap := Some (colorMap_prop p) |}.

Definition _getNearGrids (args : JsObject) (range : Z) : list JsObject :=
  let x := field_x args in
  let y := field_y args in
  let z := field_z args in
  let results :=
    dx ← for_lt (- range) (range + 1);
    let minDy := Z.max (- range) (- dx - range) in
    let maxDy := Z.min range (- dx + range) in
    dy ← for_lt minDy (maxDy + 1);
    [Obj {| x_of := jadd x (JNum dx);
            y_of := jadd y (JNum dy);
            z_of := jsub (jsub (jsub (jneg x) y) (JNum dx)) (JNum dy) |}] in
  results ++ [args].

Definition _highlightNeighbor (st : State)
    (colorMap : option (gmap string string)) : State :=
  {| colorMap := colorMap |}.

Definition highlight : string := "#22ff66".

(** [center] is [None] when the argument is [undefined]; the function
    then falls off its end and returns [undefined]. *)
Definition getLimitNeighbors (center : option JsObject) (range : Z)
    : option (gmap string string) :=
  match center with
  | Some c =>
      let ret := _getNearGrids c range in
      Some (foldl (λ colorMap grid, <[key_of grid := highlight]> colorMap)
                  ∅ ret)
  | None => None
  end.

(** [coordinate in neighbors].  The keys tested here always contain two
    commas, so no inherited property name can match and [in] is
    membership among the own keys.  Applied to [undefined], [in]
    throws. *)
Definition inRange (target : JsObject) (center : option JsObject)
    (range : Z) : result bool :=
  let coordinate := key_of target in
  match getLimitNeighbors center range with
  | Some neighbors => Ok (bool_decide (coordinate ∈ dom neighbors))
  | None => TypeError
  end.

(** The final [console.log] reads [tokens.x], which throws when there
    are no children. *)
Definition componentWillMount (p : Props) (st : State) : result State :=
  let tokens := children p in
  let highlightRange := getLimitNeighbors tokens (range p) in
  let st' := _highlightNeighbor st highlightRange in
  match tokens with
  | Some _ => Ok st'
  | None => TypeError
  end.

(** Construction followed by mounting: the state before any event. *)
Definition mount (p : Props) : result State :=
  componentWillMount p (constructor p).

(** Each handler returns the state after the event and the external
    callbacks it invoked, in order.  [tokens.props] throws when
    [tokens] is [undefined]. *)
Definition onClick (p : Props) (st : State) (args : JsObject)
    : result (State * list Call) :=
  match onClick_prop p with
  | Some cb =>
      match children p with
      | Some tokens =>
          match inRange args (field_props tokens) (range p) with
          | Ok true =>
              let highlightRange :=
                getLimitNeighbors (Some args) (range p) in
              Ok (_highlightNeighbor st highlightRange, [Invoke cb args])
          | Ok false => Ok (st, [])
          | TypeError => TypeError
          end
      | None => TypeError
      end
  | None => Ok (st, [])
  end.

Definition onMouseOver (p : Props) (st : State) (args : JsObject)
    : State * list Call :=
  match onMouseOver_prop p with
  | Some cb => (st, [Invoke cb args])
  | None => (st, [])
  end.

Definition onMouseOut (p : Props) (st : State) (args : JsObject)
    : State * list Call :=
  match onMouseOut_prop p with
  | Some cb => (st, [Invoke cb args])
  | None => (st, [])
  end.

(** The props read by the rendering methods. *)
Record Layout := {
  levels : Z;
  outline : bool;
  cellSize : R;
}.

(** A [<Hex>] element as [_getGrid] builds it: its React key, the fill
    of its style, its coordinates and its size.  Its three handlers are
    always the grid's own [onClick], [onMouseOver] and [onMouseOut]. *)
Record HexElement := {
  hex_key : string;
  fill : string;
  hex_x : Z;
  hex_y : Z;
  hex_z : Z;
  hex_size : R;
}.

(** [key in this.state.colorMap] throws when the map is [undefined]. *)
Definition _getCellColor (st : State) (x y z : Z) : result string :=
  let key := key_of (coord x y z) in
  let color := "white" in
  match colorMap st with
  | Some colorMap =>
      if bool_decide (key ∈ dom colorMap)
      then Ok (default color (colorMap !! key))
      else Ok color
  | None => TypeError
  end.

(** The key [`${x}:${y}:${z}`] of a cell. *)
Definition cell_key (x y z : Z) : string :=
  pretty x +:+ ":" +:+ pretty y +:+ ":" +:+ pretty z.

(** [None] is the [null] returned when there is no outline. *)
Definition _getGrid (l : Layout) (st : State)
    : result (option (list HexElement)) :=
  if negb (outline l) then Ok None
  else
    let r := levels l in
    result_bind
      (result_foldl (λ hexes x,
         result_foldl (λ hexes y,
           let z := - x - y in
           if bool_decide (Z.abs z > r) then Ok hexes
           else
             result_bind (_getCellColor st x y z) (λ color,
               Ok (hexes ++ [ {| hex_key := cell_key x y z;
                                 fill := color;
                                 hex_x := x;
                                 hex_y := y;
                                 hex_z := z;
                                 hex_size := cellSize l |} ])))
           hexes (for_le (- r) r))
         [] (for_le (- r) r))
      (λ hexes, Ok (Some hexes)).

End HexGrid.

(** ** The range query in double arithmetic

    The same two methods with every [+] and [-] rounded as the language
    rounds it.  The loop counters advance by [dx++] and [dy++], which is
    exact below 2^53. *)
Module HexGridDouble.

Definition _getNearGrids (args : JsObject) (range : Z) : list JsObject :=
  let x := field_x args in
  let y := field_y args in
  let z := field_z args in
  let results :=
    dx ← for_lt (- range) (Double.round (range + 1));
    let minDy := Z.max (- range) (Double.round (- dx - range)) in
    let maxDy := Z.min range (Double.round (- dx + range)) in
    dy ← for_lt minDy (Double.round (maxDy + 1));
    [Obj {| x_of := Double.add x (JNum dx);
            y_of := Double.add y (JNum dy);
            z_of := Double.sub
                      (Double.sub (Double.sub (Double.neg x) y) (JNum dx))
                      (JNum dy) |}] in
  results ++ [args].

Definition getLimitNeighbors (center : option JsObject) (range : Z)
    : option (gmap string string) :=
  match center with
  | Some c =>
      let ret := _getNearGrids c range in
      Some (foldl (λ colorMap grid,
                     <[key_of grid := HexGrid.highlight]> colorMap)
                  ∅ ret)
  | None => None
  end.

End HexGridDouble.

(** The entries pushed by the two loops of [HexGrid._getNearGrids] when
    the center holds the integers [cx], [cy] (see [_getNearGrids_coord]). *)
Definition loop_results (cx cy r : Z) : list JsObject :=
  dx ← for_lt (- r) (r + 1);
  dy ← for_lt (Z.max (- r) (- dx - r)) (Z.min r (- dx + r) + 1);
  [coord (cx + dx) (cy + dy) (- cx - cy - dx - dy)].

(** ** The earlier revision of the component (no range highlighting) *)
Module HexGridV1.

Definition _getNearGrids (args : JsObject) : list JsObject :=
  let x := field_x args in
  let y := field_y args in
  let z := field_z args in
  [ Obj {| x_of := jsub x (JNum 1); y_of := y; z_of := jadd z (JNum 1) |};
    Obj {| x_of := jsub x (JNum 1); y_of := jadd y (JNum 1); z_of := z |};
    Obj {| x_of := x; y_of := jsub y (JNum 1); z_of := jadd z (JNum 1) |};
    Obj {| x_of := jadd x (JNum 1); y_of := jsub y (JNum 1); z_of := z |};
    Obj {| x_of := x; y_of := jadd y (JNum 1); z_of := jsub z (JNum 1) |};
    Obj {| x_of := jadd x (JNum 1); y_of := y; z_of := jsub z (JNum 1) |} ].

Definition highlight : string := "rgba(10, 220, 30)".

(** The component has no constructor; its state is the [colorMap] last
    set, if any.  Returns the state after the click and the callbacks
    invoked. *)
Definition onClick (onClick_prop : option Callback)
    (st : option (gmap string string)) (args : JsObject)
    : option (gmap string string) * list Call :=
  match onClick_prop with
  | Some cb =>
      let ret := _getNearGrids args in
      let colorMap :=
        foldl (λ colorMap grid, <[key_of grid := highlight]> colorMap)
              ∅ ret in
      (Some colorMap, [Invoke cb args])
  | None => (st, [])
  end.

End HexGridV1.

(** ** The earlier revision in double arithmetic *)
Module HexGridV1Double.

Definition _getNearGrids (args : JsObject) : list JsObject :=
  let x := field_x args in
  let y := field_y args in
  let z := field_z args in
  [ Obj {| x_of := Double.sub x (JNum 1); y_of := y;
           z_of := Double.add z (JNum 1) |};
    Obj {| x_of := Double.sub x (JNum 1); y_of := Double.add y (JNum 1);
           z_of := z |};
    Obj {| x_of := x; y_of := Double.sub y (JNum 1);
           z_of := Double.add z (JNum 1) |};
    Obj {| x_of := Double.add x (JNum 1); y_of := Double.sub y (JNum 1);
           z_of := z |};
    Obj {| x_of := x; y_of := Double.add y (JNum 1);
           z_of := Double.sub z (JNum 1) |};
    Obj {| x_of := Double.add x (JNum 1); y_of := y;
           z_of := Double.sub z (JNum 1) |} ].

Definition onClick (onClick_prop : option Callback)
    (st : option (gmap string string)) (args : JsObject)
    : option (gmap string string) * list Call :=
  match onClick_prop with
  | Some cb =>
      let ret := _getNearGrids args in
      let colorMap :=
        foldl (λ colorMap grid,
                 <[key_of grid := HexGridV1.highlight]> colorMap)
              ∅ ret in
      (Some colorMap, [Invoke cb args])
  | None => (st, [])
  end.

End HexGridV1Double.

(** ** A single hexagon ([Hex], flat-topped) *)
Module Hex.

(** A double is a pair [(m, e)] of integers that stands for [m * 2^e].
    The operations below are exact or correctly rounded for values in
    the normal range (no overflow, no subnormal result). *)

(** [Math.sqrt(3)], the double 0x1.bb67ae8584caap+0. *)
Definition sqrt3 : Z * Z := (7800463371553962, -52).

(** The product of two doubles: the exact product, rounded to 53
    significant bits. *)
Definition mul (a b : Z * Z) : Z * Z :=
  (Double.round (a.1 * b.1), a.2 + b.2).

(** Multiplication ([k = 1]) and division ([k = -1]) by 2 are exact. *)
Definition scale2 (k : Z) (a : Z * Z) : Z * Z := (a.1, a.2 + k).

Definition neg (a : Z * Z) : Z * Z := (- a.1, a.2).

(** [x.toFixed(3)], for a magnitude below 1e21: the decimal [n / 1000]
    with three places nearest to the exact value of [x], a tie going
    away from zero; the result is the integer [n]. *)
Definition toFixed3 (x : Z * Z) : Z :=
  let '(m, e) := x in
  let a := Z.abs m in
  Z.sgn m * (if 0 <=? e then 1000 * a * 2 ^ e
             else (2000 * a + 2 ^ (- e)) / 2 ^ (1 - e)).

(** The decimal [n / 1000] read back as a number: the double nearest to
    it.  The quotient is computed to at least 56 bits, with a last bit
    that records an inexact division, and then rounded. *)
Definition of_thousandths (n : Z) : Z * Z :=
  if n =? 0 then (0, 0)
  else
    let a := Z.abs n in
    let t := Z.max 0 (66 - Z.log2 a) in
    let num := a * 2 ^ t in
    let q := num / 1000 in
    let sticky := if num mod 1000 =? 0 then 0 else 1 in
    (Z.sgn n * Double.round (2 * q + sticky), - t - 1).

Definition width (size : Z * Z) : Z * Z := scale2 1 size.

(** The string that [height] returns, as its number of thousandths. *)
Definition height (size : Z * Z) : Z :=
  toFixed3 (mul (scale2 (-1) sqrt3) (width size)).

(** The six vertices; the source prints each as [`${x},${y}`] and joins
    them with spaces, the list holds the numbers printed.  [h / 2.0] and
    [-h / 2.0] first read the string [h] back as a number. *)
Definition points (size : Z * Z) : list ((Z * Z) * (Z * Z)) :=
  let s := size in
  let h := of_thousandths (height size) in
  let xa := neg s in
  let xb := scale2 (-1) (neg s) in
  let xc := scale2 (-1) s in
  let xd := s in
  let xe := xc in
  let xf := xb in
  let ya := (0, 0) in
  let yb := scale2 (-1) h in
  let yc := yb in
  let yd := ya in
  let ye := scale2 (-1) (neg h) in
  let yf := ye in
  [ (xa, ya); (xb, yb); (xc, yc); (xd, yd); (xe, ye); (xf, yf) ].

(** The real number that a double stands for. *)
Definition value (x : Z * Z) : R := (IZR x.1 * powerRZ 2 x.2)%R.

(** The click handler of a cell: [this.props.onClick({x, y, z})], an
    unguarded call that throws when the prop is absent. *)
Definition onClick {T} (onClick_prop : option (JsObject → T)) (x y z : Z)
    : result T :=
  match onClick_prop with
  | Some f => Ok (f (coord x y z))
  | None => TypeError
  end.

End Hex.

(** ** Derived notions *)

(** The keys of the colour map that [getLimitNeighbors] builds around a
    center. *)
Definition disk_keys (c : JsObject) (r : Z) : gset string :=
  match HexGrid.getLimitNeighbors (Some c) r with
  | Some m => dom m
  | None => ∅
  end.

(** The same keys as the code computes them, in double arithmetic. *)
Definition double_disk_keys (c : JsObject) (r : Z) : gset string :=
  match HexGridDouble.getLimitNeighbors (Some c) r with
  | Some m => dom m
  | None => ∅
  end.

(** The centers and ranges for which every sum and difference that the
    range query forms is below 2^53 in magnitude, hence exact. *)
Definition exact_range (cx cy r : Z) : Prop :=
  0 ≤ r < 2 ^ 52
  ∧ Z.abs cx + r < 2 ^ 53
  ∧ Z.abs cy + r < 2 ^ 53
  ∧ Z.abs (cx + cy) + r < 2 ^ 53.

(** The cells whose six neighbours are computed exactly. *)
Definition exact_cell (x y z : Z) : Prop :=
  Z.abs x + 1 < 2 ^ 53 ∧ Z.abs y + 1 < 2 ^ 53 ∧ Z.abs z + 1 < 2 ^ 53.

(** A click on a cell that [_getGrid] rendered: the cell's handler is the
    grid's [onClick]. *)
Definition click_cell (p : HexGrid.Props) (st : HexGrid.State)
    (h : HexGrid.HexElement) : result (HexGrid.State * list Call) :=
  result_bind
    (Hex.onClick (Some (HexGrid.onClick p st))
       (HexGrid.hex_x h) (HexGrid.hex_y h) (HexGrid.hex_z h))
    (λ r, r).

(** The elements that the two loops of [_getGrid] push when the fill of
    the cell [(x, y, z)] is [color x y z] (see [_getGrid_defined]). *)
Definition grid_hexes (color : Z → Z → Z → string) (size : R) (r : Z)
    : list HexGrid.HexElement :=
  x ← for_le (- r) r;
  y ← for_le (- r) r;
  if bool_decide (Z.abs (- x - y) > r) then []
  else [ {| HexGrid.hex_key := HexGrid.cell_key x y (- x - y);
            HexGrid.fill := color x y (- x - y);
            HexGrid.hex_x := x;
            HexGrid.hex_y := y;
            HexGrid.hex_z := - x - y;
            HexGrid.hex_size := size |} ].

(** The fill that [_getCellColor] reads off a colour map. *)
Definition color_in (m : gmap string string) (x y z : Z) : string :=
  default "white" (m !! key_of (coord x y z)).

Definition not_colon (c : ascii) : bool := negb (Ascii.eqb c ":").

(** ** Example configurations *)

(** A grid with one token at the origin, range 1 and a click callback. *)
Definition token_at_origin : HexGrid.Props :=
  {| HexGrid.colorMap_prop := ∅;
     HexGrid.range := 1;
     HexGrid.onClick_prop := Some (Fn 0);
     HexGrid.onMouseOver_prop := Some (Fn 1);
     HexGrid.onMouseOut_prop := Some (Fn 2);
     HexGrid.children := Some (Element (XYZ (JNum 0) (JNum 0) (JNum 0))) |}.

(** The same grid with the range set to [-1]. *)
Definition negative_range : HexGrid.Props :=
  {| HexGrid.colorMap_prop := ∅;
     HexGrid.range := -1;
     HexGrid.onClick_prop := Some (Fn 0);
     HexGrid.onMouseOver_prop := Some (Fn 1);
     HexGrid.onMouseOut_prop := Some (Fn 2);
     HexGrid.children := Some (Element (XYZ (JNum 0) (JNum 0) (JNum 0))) |}.

(** The same grid without a click callback. *)
Definition no_click_callback : HexGrid.Props :=
  {| HexGrid.colorMap_prop := ∅;
     HexGrid.range := 1;
     HexGrid.onClick_prop := None;
     HexGrid.onMouseOver_prop := Some (Fn 1);
     HexGrid.onMouseOut_prop := Some (Fn 2);
     HexGrid.children := Some (Element (XYZ (JNum 0) (JNum 0) (JNum 0))) |}.

(** A click is accepted when the handler recomputes the colour map
    around the clicked cell and invokes the external callback with it. *)
Definition accepted (p : HexGrid.Props) (st : HexGrid.State)
    (args : JsObject) : Prop :=
  ∃ cb, HexGrid.onClick_prop p = Some cb
        ∧ HexGrid.onClick p st args
          = Ok (HexGrid._highlightNeighbor st
                  (HexGrid.getLimitNeighbors (Some args) (HexGrid.range p)),
                [Invoke cb args]).

(** A click is rejected when it changes nothing and invokes nothing. *)
Definition rejected (p : HexGrid.Props) (st : HexGrid.State)
    (args : JsObject) : Prop :=
  HexGrid.onClick p st args = Ok (st, []).

(** The keys currently highlighted. *)
Definition highlighted (st : HexGrid.State) : gset string :=
  match HexGrid.colorMap st with
  | Some m => dom m
  | None => ∅
  end.

(** Moves the injection of the integers into the reals inwards. *)
Ltac push_IZR H :=
  repeat first [ rewrite plus_IZR in H | rewrite minus_IZR in H
               | rewrite mult_IZR in H | rewrite opp_IZR in H ].

(** * Keys

    The key of a coordinate determines the coordinate: decimal numerals
    contain no comma, and differ from "NaN" and "undefined". *)
Section keys.

Lemma append_nil s : "" +:+ s = s.
Proof. reflexivity. Qed.

Lemma append_cons c s t : String c s +:+ t = String c (s +:+ t).
Proof. reflexivity. Qed.

Lemma all_chars_app P s t :
  all_chars P (s +:+ t) = all_chars P s && all_chars P t.
Proof.
  induction s as [|c s IH]; rewrite ?append_cons, ?append_nil; simpl; [done|].
  by rewrite IH, andb_assoc.
Qed.

Lemma is_num_char_pretty_N_char n : is_num_char (pretty_N_char n) = true.
Proof. unfold pretty_N_char. by repeat case_match. Qed.

Lemma all_chars_pretty_N_go n s :
  all_chars is_num_char s = true →
  all_chars is_num_char (pretty_N_go n s) = true.
Proof.
  revert s. induction (N.lt_wf_0 n) as [n _ IH]; intros s Hs.
  destruct (decide (n = 0)%N) as [->|Hn]; [by rewrite pretty_N_go_0|].
  rewrite pretty_N_go_step by lia.
  apply IH; [apply N.div_lt; lia|].
  simpl. by rewrite is_num_char_pretty_N_char, Hs.
Qed.

Lemma all_chars_pretty_N (n : N) : all_chars is_num_char (pretty n) = true.
Proof.
  unfold pretty, pretty_N. case_decide; [done|].
  by apply all_chars_pretty_N_go.
Qed.

Lemma all_chars_pretty_Z (n : Z) : all_chars is_num_char (pretty n) = true.
Proof.
  destruct n as [|q|q]; [done|apply (all_chars_pretty_N (N.pos q))|].
  change (pretty (Z.neg q)) with ("-" +:+ pretty (N.pos q)).
  rewrite all_chars_app. by rewrite all_chars_pretty_N.
Qed.

Lemma all_chars_impl (P Q : ascii → bool) s :
  (∀ c, P c = true → Q c = true) →
  all_chars P s = true → all_chars Q s = true.
Proof.
  intros HPQ. induction s as [|c s IH]; simpl; [done|].
  rewrite !andb_true_iff. intros [Hc Hs]. auto.
Qed.

Lemma is_num_char_not_comma c : is_num_char c = true → not_comma c = true.
Proof.
  intros Hc. unfold not_comma.
  destruct (Ascii.eqb_spec c ","%char) as [->|]; done.
Qed.

Lemma ToString_no_comma v : all_chars not_comma (ToString v) = true.
Proof.
  destruct v as [| |n]; [done..|]. simpl.
  eapply all_chars_impl; [apply is_num_char_not_comma|].
  apply all_chars_pretty_Z.
Qed.

Global Instance ToString_inj : Inj (=) (=) ToString.
Proof.
  intros [| |m] [| |n] Heq; simpl in Heq; try done.
  - pose proof (all_chars_pretty_Z n) as H. rewrite <-Heq in H. done.
  - pose proof (all_chars_pretty_Z n) as H. rewrite <-Heq in H. done.
  - pose proof (all_chars_pretty_Z m) as H. rewrite Heq in H. done.
  - pose proof (all_chars_pretty_Z m) as H. rewrite Heq in H. done.
  - by apply (inj pretty) in Heq as ->.
Qed.

(** Splitting at the first comma is unambiguous. *)
Lemma comma_split s1 s2 r1 r2 :
  all_chars not_comma s1 = true →
  all_chars not_comma s2 = true →
  s1 +:+ "," +:+ r1 = s2 +:+ "," +:+ r2 →
  s1 = s2 ∧ r1 = r2.
Proof.
  revert s2. induction s1 as [|c s1 IH]; intros [|d s2];
    rewrite ?append_cons, ?append_nil; simpl.
  - intros _ _ [= ->]. done.
  - rewrite andb_true_iff. intros _ [Hd _] [= <- _]. done.
  - rewrite andb_true_iff. intros [Hc _] _ [= -> _]. done.
  - rewrite !andb_true_iff. intros [_ H1] [_ H2] [= -> Heq].
    destruct (IH s2 H1 H2 Heq) as [-> ->]. done.
Qed.

Lemma key_of_Obj_inj g1 g2 : key_of (Obj g1) = key_of (Obj g2) → g1 = g2.
Proof.
  destruct g1 as [x1 y1 z1], g2 as [x2 y2 z2]. unfold key_of. simpl.
  intros Heq.
  apply comma_split in Heq as [Hx Heq]; [|apply ToString_no_comma..].
  apply comma_split in Heq as [Hy Hz]; [|apply ToString_no_comma..].
  apply (inj ToString) in Hx, Hy, Hz. by subst.
Qed.

Lemma key_of_coord_inj a b c a' b' c' :
  key_of (coord a b c) = key_of (coord a' b' c') →
  a = a' ∧ b = b' ∧ c = c'.
Proof. intros Heq%key_of_Obj_inj. by simplify_eq. Qed.

End keys.

(** * The range query *)
Section range_query.
Import HexGrid.

Lemma _getNearGrids_coord cx cy cz r :
  _getNearGrids (coord cx cy cz) r
  = loop_results cx cy r ++ [coord cx cy cz].
Proof. reflexivity. Qed.

Lemma elem_of_for_lt i lo hi : i ∈ for_lt lo hi ↔ lo ≤ i < hi.
Proof. unfold for_lt. rewrite elem_of_seqZ. lia. Qed.

Lemma elem_of_loop_results o cx cy r :
  o ∈ loop_results cx cy r ↔
  ∃ dx dy, - r ≤ dx ≤ r
           ∧ Z.max (- r) (- dx - r) ≤ dy ≤ Z.min r (- dx + r)
           ∧ o = coord (cx + dx) (cy + dy) (- cx - cy - dx - dy).
Proof.
  unfold loop_results. rewrite list_elem_of_bind. split.
  - intros (dx & (dy & Ho & Hdy)%list_elem_of_bind & Hdx).
    apply list_elem_of_singleton in Ho.
    apply elem_of_for_lt in Hdx, Hdy.
    exists dx, dy. split_and!; [lia..|done].
  - intros (dx & dy & Hdx & Hdy & ->).
    exists dx. split; [|apply elem_of_for_lt; lia].
    apply list_elem_of_bind. exists dy.
    split; [apply list_elem_of_singleton; done|apply elem_of_for_lt; lia].
Qed.

(** The loops emit exactly the on-plane points whose offsets from the
    center are bounded by the range on all three axes. *)
Lemma elem_of_loop_results_coord px py pz cx cy r :
  coord px py pz ∈ loop_results cx cy r ↔
  pz = - px - py
  ∧ Z.abs (px - cx) ≤ r ∧ Z.abs (py - cy) ≤ r
  ∧ Z.abs ((px - cx) + (py - cy)) ≤ r.
Proof.
  rewrite elem_of_loop_results. split.
  - intros (dx & dy & Hdx & Hdy & [= -> -> ->]). lia.
  - intros (-> & Hx & Hy & Hz).
    exists (px - cx), (py - cy). split_and!; [lia..|].
    unfold coord. do 2 f_equal; f_equal; lia.
Qed.

Lemma center_in_loop_results cx cy cz r :
  cx + cy + cz = 0 → 0 ≤ r → coord cx cy cz ∈ loop_results cx cy r.
Proof. intros. apply elem_of_loop_results_coord. lia. Qed.

Lemma loop_results_coord o cx cy r :
  o ∈ loop_results cx cy r → ∃ a b, o = coord a b (- a - b).
Proof.
  intros (dx & dy & _ & _ & ->)%elem_of_loop_results.
  exists (cx + dx), (cy + dy). unfold coord. do 2 f_equal; f_equal; lia.
Qed.

Lemma loop_results_nil cx cy r : r < 0 → loop_results cx cy r = [].
Proof.
  intros Hr. unfold loop_results, for_lt. by rewrite (seqZ_nil (- r)) by lia.
Qed.

(** The colour map has one key per entry of the list. *)
Lemma dom_foldl_insert (l : list JsObject) (m : gmap string string) v :
  dom (foldl (λ colorMap grid, <[key_of grid := v]> colorMap) m l)
  = dom m ∪ list_to_set (key_of <$> l).
Proof.
  revert m. induction l as [|o l IH]; intros m; simpl.
  - set_solver.
  - rewrite IH, dom_insert_L. set_solver.
Qed.

Lemma getLimitNeighbors_dom c r :
  ∃ m, getLimitNeighbors (Some c) r = Some m
       ∧ dom m = list_to_set (key_of <$> _getNearGrids c r).
Proof.
  eexists. split; [reflexivity|].
  rewrite dom_foldl_insert. set_solver.
Qed.

Lemma key_in_loop_results px py pz cx cy r :
  key_of (coord px py pz) ∈ key_of <$> loop_results cx cy r ↔
  coord px py pz ∈ loop_results cx cy r.
Proof.
  rewrite list_elem_of_fmap. split.
  - intros (o & Hkey & Ho).
    destruct (loop_results_coord _ _ _ _ Ho) as (a & b & ->).
    apply key_of_coord_inj in Hkey as (-> & -> & ->). done.
  - intros Ho. eauto.
Qed.

End range_query.

(** * Membership and size of the highlighted disk *)
Section disk.
Import HexGrid.

(** On the plane [x + y + z = 0] the three offsets sum to zero, so the
    bound on each axis is the bound on the hex distance. *)
Lemma hexDistance_le_iff cx cy cz px py pz r :
  cx + cy + cz = 0 → px + py + pz = 0 →
  hexDistance (cx, cy, cz) (px, py, pz) ≤ r ↔
  Z.abs (px - cx) ≤ r ∧ Z.abs (py - cy) ≤ r
  ∧ Z.abs ((px - cx) + (py - cy)) ≤ r.
Proof.
  intros Hc Hp. unfold hexDistance.
  assert (pz = - px - py) as -> by lia.
  assert (cz = - cx - cy) as -> by lia.
  set (total := Z.abs (cx - px) + Z.abs (cy - py)
                + Z.abs (- cx - cy - (- px - py))).
  pose proof (Z.div_mod total 2 ltac:(lia)) as Hdiv.
  pose proof (Z.mod_pos_bound total 2 ltac:(lia)) as Hmod.
  subst total.
  set (q := _ / 2) in *. set (k := _ mod 2) in *. clearbody q k.
  lia.
Qed.

(** On exact integers: for a center on the plane and a non-negative
    range, the key of
    a cube coordinate [p] is among the keys of the colour map built by
    [getLimitNeighbors] from [_getNearGrids] exactly when the hex
    distance from the center to [p] is at most the range. *)
Theorem range_query_iff_hexDistance cx cy cz px py pz r :
  cx + cy + cz = 0 → px + py + pz = 0 → 0 ≤ r →
  ∃ m, getLimitNeighbors (Some (coord cx cy cz)) r = Some m
       ∧ (key_of (coord px py pz) ∈ dom m ↔
          hexDistance (cx, cy, cz) (px, py, pz) ≤ r).
Proof.
  intros Hc Hp Hr.
  destruct (getLimitNeighbors_dom (coord cx cy cz) r) as (m & Hm & Hdom).
  exists m. split; [done|].
  rewrite Hdom, _getNearGrids_coord, fmap_app, elem_of_list_to_set.
  rewrite elem_of_app, key_in_loop_results, elem_of_loop_results_coord.
  rewrite hexDistance_le_iff by done.
  split.
  - intros [?|Hkey%list_elem_of_singleton]; [tauto|].
    apply key_of_coord_inj in Hkey as (-> & -> & ->). lia.
  - intros ?. left. split; [lia|done].
Qed.


(** The hypothesis that [p] is itself a cube coordinate is needed: off
    the plane a point can be at hex distance 0 of the center and is
    never emitted. *)
Lemma range_query_off_plane :
  hexDistance (0, 0, 0) (0, 0, 1) ≤ 0
  ∧ ∃ m, getLimitNeighbors (Some (coord 0 0 0)) 0 = Some m
         ∧ key_of (coord 0 0 1) ∉ dom m.
Proof.
  split; [by vm_compute|].
  destruct (getLimitNeighbors_dom (coord 0 0 0) 0) as (m & Hm & Hdom).
  exists m. split; [done|]. rewrite Hdom. by vm_compute.
Qed.

Lemma length_bind_singleton {A B} (g : A → B) (l : list A) :
  length (l ≫= λ a, [g a]) = length l.
Proof. induction l as [|a l IH]; csimpl; [done|]. by rewrite IH. Qed.

(** Length of a loop whose body emits a number of entries linear in the
    loop variable (twice the length, to stay in the integers). *)
Lemma length_bind_linear {A} (f : Z → list A) (a b s : Z) (n : nat) :
  (∀ i, a ≤ i < a + Z.of_nat n → Z.of_nat (length (f i)) = b + s * i) →
  2 * Z.of_nat (length (seqZ a (Z.of_nat n) ≫= f))
  = 2 * Z.of_nat n * b
    + s * (2 * Z.of_nat n * a + Z.of_nat n * (Z.of_nat n - 1)).
Proof.
  induction n as [|n IH]; intros Hf.
  - rewrite seqZ_nil by done. csimpl. lia.
  - rewrite seqZ_S, bind_app, length_app, bind_singleton.
    rewrite Nat2Z.inj_add, Z.mul_add_distr_l, IH by (intros; apply Hf; lia).
    rewrite Hf by lia. lia.
Qed.

Lemma length_loop_results cx cy r :
  0 ≤ r → Z.of_nat (length (loop_results cx cy r)) = 3 * r * r + 3 * r + 1.
Proof.
  intros Hr. unfold loop_results.
  match goal with |- context [mbind ?f (for_lt _ _)] => set (body := f) end.
  assert (for_lt (- r) (r + 1) = seqZ (- r) r ++ seqZ 0 (r + 1)) as ->.
  { unfold for_lt. replace (r + 1 - - r) with (r + (r + 1)) by lia.
    rewrite seqZ_app by lia. do 2 f_equal. lia. }
  rewrite bind_app, length_app, Nat2Z.inj_add.
  pose proof (length_bind_linear body (- r) (2 * r + 1) 1 (Z.to_nat r))
    as Hneg.
  pose proof (length_bind_linear body 0 (2 * r + 1) (-1) (Z.to_nat (r + 1)))
    as Hpos.
  rewrite !Z2Nat.id in Hneg, Hpos by lia.
  assert (∀ i, - r ≤ i < 0 → Z.of_nat (length (body i)) = 2 * r + 1 + 1 * i)
    as Hn.
  { intros i Hi. unfold body. rewrite length_bind_singleton.
    unfold for_lt. rewrite length_seqZ. lia. }
  assert (∀ i, 0 ≤ i < r + 1 → Z.of_nat (length (body i)) = 2 * r + 1 + -1 * i)
    as Hp.
  { intros i Hi. unfold body. rewrite length_bind_singleton.
    unfold for_lt. rewrite length_seqZ. lia. }
  specialize (Hneg ltac:(intros; apply Hn; lia)).
  specialize (Hpos ltac:(intros; apply Hp; lia)).
  lia.
Qed.

Lemma NoDup_loop_results cx cy r : NoDup (loop_results cx cy r).
Proof.
  unfold loop_results. apply NoDup_bind; [| |apply NoDup_seqZ].
  - intros dx1 dx2 o _ _.
    intros (dy1 & ->%list_elem_of_singleton & _)%list_elem_of_bind.
    intros (dy2 & [= ? _]%list_elem_of_singleton & _)%list_elem_of_bind.
    lia.
  - intros dx _. apply NoDup_bind; [| |apply NoDup_seqZ].
    + intros dy1 dy2 o _ _ ->%list_elem_of_singleton.
      intros [= ? _]%list_elem_of_singleton. lia.
    + intros dy _. apply NoDup_singleton.
Qed.

Lemma NoDup_loop_keys cx cy r : NoDup (key_of <$> loop_results cx cy r).
Proof.
  apply NoDup_fmap_2_strong; [|apply NoDup_loop_results].
  intros o1 o2 Ho1 Ho2 Hkey.
  destruct (loop_results_coord _ _ _ _ Ho1) as (a1 & b1 & ->).
  destruct (loop_results_coord _ _ _ _ Ho2) as (a2 & b2 & ->).
  apply key_of_coord_inj in Hkey as (-> & -> & _). done.
Qed.

(** On exact integers: for a center on the plane and a non-negative
    range, the set of
    distinct keys produced by the range query contains the key of the
    center and has exactly [3*r*r + 3*r + 1] elements. *)
Theorem range_query_center_and_size cx cy cz r :
  cx + cy + cz = 0 → 0 ≤ r →
  ∃ m, getLimitNeighbors (Some (coord cx cy cz)) r = Some m
       ∧ key_of (coord cx cy cz) ∈ dom m
       ∧ Z.of_nat (size (dom m)) = 3 * r * r + 3 * r + 1.
Proof.
  intros Hc Hr.
  destruct (getLimitNeighbors_dom (coord cx cy cz) r) as (m & Hm & Hdom).
  exists m. split; [done|].
  assert (key_of (coord cx cy cz)
          ∈@{gset string} list_to_set (key_of <$> loop_results cx cy r))
    as Hin.
  { rewrite elem_of_list_to_set, key_in_loop_results.
    by apply center_in_loop_results. }
  assert (dom m = list_to_set (key_of <$> loop_results cx cy r)) as ->.
  { rewrite Hdom, _getNearGrids_coord, fmap_app, list_to_set_app_L.
    simpl. set_solver. }
  split; [done|].
  rewrite size_list_to_set by apply NoDup_loop_keys.
  rewrite length_fmap. by apply length_loop_results.
Qed.


End disk.

(** * The click and hover handlers *)
Section controller.
Import HexGrid.

Lemma accepted_not_rejected p st args : accepted p st args → ¬ rejected p st args.
Proof. intros (cb & _ & Hacc) Hrej. unfold rejected in Hrej. congruence. Qed.

(** The click handler of a grid with a callback and a single token. *)
Lemma onClick_token p st args cb tok :
  onClick_prop p = Some cb →
  children p = Some (Element tok) →
  ∃ disk, getLimitNeighbors (Some (Obj tok)) (range p) = Some disk
          ∧ onClick p st args
            = if bool_decide (key_of args ∈ dom disk)
              then Ok (_highlightNeighbor st
                         (getLimitNeighbors (Some args) (range p)),
                       [Invoke cb args])
              else Ok (st, []).
Proof.
  intros Hcb Htok.
  destruct (getLimitNeighbors_dom (Obj tok) (range p)) as (disk & Hdisk & _).
  exists disk. split; [done|].
  unfold onClick, inRange. rewrite Hcb, Htok. simpl field_props.
  rewrite Hdisk. by case_bool_decide.
Qed.

Lemma click_decided_by_token_disk p st args cb tok :
  onClick_prop p = Some cb →
  children p = Some (Element tok) →
  ∃ disk, getLimitNeighbors (Some (Obj tok)) (range p) = Some disk
          ∧ (accepted p st args ↔ key_of args ∈ dom disk)
          ∧ (rejected p st args ↔ key_of args ∉ dom disk).
Proof.
  intros Hcb Htok.
  destruct (onClick_token p st args cb tok Hcb Htok)
    as (disk & Hdisk & Hstep).
  exists disk. split; [done|].
  unfold accepted, rejected. rewrite Hstep, Hcb.
  case_bool_decide as Hin; split; split; try done; try naive_solver.
Qed.

(** C1, as the code has it: with a click callback configured and a
    single token as child, a click is accepted exactly when its key is
    in the disk of the configured range around the token's position
    (the props of the child), and is rejected otherwise; the colour map
    in the state is not consulted. *)
Theorem onClick_accepts_iff_in_token_disk p st args cb tok :
  onClick_prop p = Some cb →
  children p = Some (Element tok) →
  ∃ disk, getLimitNeighbors (Some (Obj tok)) (range p) = Some disk
          ∧ (accepted p st args ↔ key_of args ∈ dom disk)
          ∧ (rejected p st args ↔ key_of args ∉ dom disk).
Proof. apply click_decided_by_token_disk. Qed.

Lemma onClick_accepts_iff_in_token_disk_witness :
  ∃ disk,
    getLimitNeighbors (Some (coord 0 0 0)) (range token_at_origin)
    = Some disk
    ∧ (accepted token_at_origin {| colorMap := Some ∅ |} (coord 1 0 (-1))
       ↔ key_of (coord 1 0 (-1)) ∈ dom disk)
    ∧ (rejected token_at_origin {| colorMap := Some ∅ |} (coord 1 0 (-1))
       ↔ key_of (coord 1 0 (-1)) ∉ dom disk).
Proof.
  apply (onClick_accepts_iff_in_token_disk token_at_origin
           {| colorMap := Some ∅ |} (coord 1 0 (-1)) (Fn 0)
           (XYZ (JNum 0) (JNum 0) (JNum 0))); reflexivity.
Defined.

(** When the colour map of the state is the disk around the token, the
    test is the membership test on the current highlight set. *)
Lemma onClick_in_sync p st args cb tok :
  onClick_prop p = Some cb →
  children p = Some (Element tok) →
  colorMap st = getLimitNeighbors (Some (Obj tok)) (range p) →
  (accepted p st args ↔ key_of args ∈ highlighted st)
  ∧ (rejected p st args ↔ key_of args ∉ highlighted st).
Proof.
  intros Hcb Htok Hsync.
  destruct (click_decided_by_token_disk p st args cb tok Hcb Htok)
    as (disk & Hdisk & Hacc & Hrej).
  unfold highlighted. by rewrite Hsync, Hdisk.
Qed.

(** C1 fails as stated: after an accepted click on (1,0,-1) that the
    host answers without moving the token, the cell (2,-1,-1) is in the
    current highlight set, yet a click on it is rejected. *)
Lemma onClick_rejects_highlighted_cell :
  ∃ st0 st1,
    mount token_at_origin = Ok st0
    ∧ onClick token_at_origin st0 (coord 1 0 (-1))
      = Ok (st1, [Invoke (Fn 0) (coord 1 0 (-1))])
    ∧ key_of (coord 2 (-1) (-1)) ∈ highlighted st1
    ∧ rejected token_at_origin st1 (coord 2 (-1) (-1))
    ∧ ¬ accepted token_at_origin st1 (coord 2 (-1) (-1)).
Proof.
  eexists _, _. split; [reflexivity|].
  split; [by vm_compute|].
  split; [by vm_compute|].
  assert (rejected token_at_origin
            {| colorMap := getLimitNeighbors (Some (coord 1 0 (-1))) 1 |}
            (coord 2 (-1) (-1))) as Hrej by (by vm_compute).
  split; [exact Hrej|].
  intros Hacc. by apply accepted_not_rejected in Hacc.
Qed.

(** With a callback configured, the handler reads [tokens.props]: it
    throws when the grid has no child, and when the children are an array
    (whose [props] is [undefined], which [in] cannot be applied to). *)
Lemma onClick_without_single_token p st args cb :
  onClick_prop p = Some cb →
  children p = None ∨ (∃ es, children p = Some (ElementArray es)) →
  onClick p st args = TypeError.
Proof.
  intros Hcb [Hnone|[es Harr]]; unfold onClick; rewrite Hcb.
  - by rewrite Hnone.
  - by rewrite Harr.
Qed.

(** C10: without a click callback every click, also one on a
    highlighted cell, leaves the state as it is and invokes nothing. *)
Theorem onClick_without_callback p st args :
  onClick_prop p = None → onClick p st args = Ok (st, []).
Proof. intros Hcb. unfold onClick. by rewrite Hcb. Qed.

Lemma onClick_without_callback_witness :
  key_of (coord 1 0 (-1))
    ∈ highlighted {| colorMap := getLimitNeighbors (Some (coord 0 0 0)) 1 |}
  ∧ onClick no_click_callback
      {| colorMap := getLimitNeighbors (Some (coord 0 0 0)) 1 |}
      (coord 1 0 (-1))
    = Ok ({| colorMap := getLimitNeighbors (Some (coord 0 0 0)) 1 |}, []).
Proof.
  split; [by vm_compute|].
  apply (onClick_without_callback no_click_callback). reflexivity.
Defined.

(** C8: a hover-start or hover-end event is forwarded to the configured
    hover callback (nothing is invoked when none is configured) and the
    state is returned as it was. *)
Theorem hover_forwards_and_keeps_state p st args :
  onMouseOver p st args
  = (st, match onMouseOver_prop p with
         | Some cb => [Invoke cb args]
         | None => []
         end)
  ∧ onMouseOut p st args
    = (st, match onMouseOut_prop p with
           | Some cb => [Invoke cb args]
           | None => []
           end).
Proof.
  unfold onMouseOver, onMouseOut.
  by destruct (onMouseOver_prop p), (onMouseOut_prop p).
Qed.

End controller.

(** * Construction, negative ranges and the six neighbours *)
Section construction.
Import HexGrid.

Lemma _getNearGrids_Element tok r o :
  o ∈ _getNearGrids (Element tok) r →
  o = Obj (XYZ JNaN JNaN JNaN) ∨ o = Element tok.
Proof.
  unfold _getNearGrids. rewrite elem_of_app, list_elem_of_singleton.
  intros [(dx & (dy & Ho & _)%list_elem_of_bind & _)%list_elem_of_bind|?];
    [left|by right].
  by apply list_elem_of_singleton in Ho.
Qed.

(** Mounting hands the child element itself to the range query, whose
    [x], [y], [z] are absent: whatever the token's position and the
    range, no integer coordinate is highlighted afterwards. *)
Lemma mount_highlights_no_coord p tok a b c :
  children p = Some (Element tok) →
  ∃ st, mount p = Ok st ∧ key_of (coord a b c) ∉ highlighted st.
Proof.
  intros Htok.
  destruct (getLimitNeighbors_dom (Element tok) (range p))
    as (m & Hm & Hdom).
  exists {| colorMap := Some m |}. split.
  { unfold mount, componentWillMount. by rewrite Htok, Hm. }
  unfold highlighted. simpl. rewrite Hdom, elem_of_list_to_set.
  intros (o & Hkey & Ho)%list_elem_of_fmap.
  apply _getNearGrids_Element in Ho as [->| ->].
  - by apply key_of_Obj_inj in Hkey.
  - change (key_of (Element tok))
      with (key_of (Obj (XYZ JUndefined JUndefined JUndefined))) in Hkey.
    by apply key_of_Obj_inj in Hkey.
Qed.

(** C4 does not hold of the code: for a grid whose token is at the
    origin and whose range is 1, the colour map after mounting has the
    two keys "NaN,NaN,NaN" and "undefined,undefined,undefined" and not
    the seven keys of the disk around the origin. *)
Theorem mount_highlight_is_not_token_disk :
  ∃ st0 disk,
    mount token_at_origin = Ok st0
    ∧ getLimitNeighbors (Some (coord 0 0 0)) 1 = Some disk
    ∧ highlighted st0
      = {[ "NaN,NaN,NaN"; "undefined,undefined,undefined" ]}
    ∧ dom disk
      = {[ "-1,0,1"; "-1,1,0"; "0,-1,1"; "0,0,0"; "0,1,-1"; "1,-1,0";
           "1,0,-1" ]}
    ∧ colorMap st0 ≠ Some disk.
Proof.
  eexists _, _. split; [reflexivity|]. split; [reflexivity|].
  split; [by vm_compute|]. split; [by vm_compute|].
  intros Heq.
  apply (f_equal (λ o : option (gmap string string),
                    match o with
                    | Some m => bool_decide ("0,0,0" ∈ dom m)
                    | None => false
                    end)) in Heq.
  vm_compute in Heq. discriminate.
Qed.

Lemma _getNearGrids_negative c r : r < 0 → _getNearGrids c r = [c].
Proof.
  intros Hr. unfold _getNearGrids, for_lt.
  by rewrite (seqZ_nil (- r)) by lia.
Qed.

(** C7, as the code has it: no range is rejected.  With a negative
    range mounting succeeds, the loops of the range query emit nothing,
    and the colour map around any center holds the key of that center
    only. *)
Theorem negative_range_is_accepted p tokens :
  range p < 0 →
  children p = Some tokens →
  (∃ st, mount p = Ok st)
  ∧ ∀ c, getLimitNeighbors (Some c) (range p)
         = Some {[ key_of c := highlight ]}.
Proof.
  intros Hr Htok. split.
  - unfold mount, componentWillMount. rewrite Htok. eauto.
  - intros c. unfold getLimitNeighbors.
    rewrite _getNearGrids_negative by done. simpl.
    by rewrite insert_empty.
Qed.

Lemma negative_range_is_accepted_witness :
  (∃ st, mount negative_range = Ok st)
  ∧ ∀ c, getLimitNeighbors (Some c) (range negative_range)
         = Some {[ key_of c := highlight ]}.
Proof.
  apply (negative_range_is_accepted negative_range
           (Element (XYZ (JNum 0) (JNum 0) (JNum 0))));
    [by vm_compute|reflexivity].
Defined.

(** C7 fails as stated: a grid configured with range [-1] is built and
    mounted, and then accepts a click on the token's cell. *)
Lemma negative_range_mounts :
  range negative_range < 0
  ∧ ∃ st, mount negative_range = Ok st
          ∧ accepted negative_range st (coord 0 0 0).
Proof.
  split; [by vm_compute|].
  eexists. split; [reflexivity|].
  exists (Fn 0). split; [reflexivity|]. by vm_compute.
Qed.

End construction.

Section neighbours.

Lemma neighbours_coord x y z :
  HexGridV1._getNearGrids (coord x y z)
  = [ coord (x - 1) y (z + 1); coord (x - 1) (y + 1) z;
      coord x (y - 1) (z + 1); coord (x + 1) (y - 1) z;
      coord x (y + 1) (z - 1); coord (x + 1) y (z - 1) ].
Proof. reflexivity. Qed.

(** On exact integers: the six neighbours of [(x, y, z)], in the order
    of the source,
    each at hex distance exactly 1. *)
Theorem neighbors6_order_and_distance x y z :
  HexGridV1._getNearGrids (coord x y z)
  = [ coord (x - 1) y (z + 1); coord (x - 1) (y + 1) z;
      coord x (y - 1) (z + 1); coord (x + 1) (y - 1) z;
      coord x (y + 1) (z - 1); coord (x + 1) y (z - 1) ]
  ∧ Forall (λ q, hexDistance (x, y, z) q = 1)
      [ (x - 1, y, z + 1); (x - 1, y + 1, z); (x, y - 1, z + 1);
        (x + 1, y - 1, z); (x, y + 1, z - 1); (x + 1, y, z - 1) ].
Proof.
  split; [apply neighbours_coord|].
  repeat constructor; unfold hexDistance;
    match goal with
    | |- ?n / 2 = 1 => replace n with 2 by lia; reflexivity
    end.
Qed.

(** On exact integers: for a center on the plane [x + y + z = 0], every
    entry returned
    by the range query (for any range) and every one of the six
    neighbours is an integer coordinate on that plane. *)
Theorem cube_invariant_preserved cx cy cz r :
  cx + cy + cz = 0 →
  Forall (λ o, ∃ a b c, o = coord a b c ∧ a + b + c = 0)
    (HexGrid._getNearGrids (coord cx cy cz) r)
  ∧ Forall (λ o, ∃ a b c, o = coord a b c ∧ a + b + c = 0)
      (HexGridV1._getNearGrids (coord cx cy cz)).
Proof.
  intros Hc. split.
  - rewrite _getNearGrids_coord, Forall_app, Forall_singleton. split.
    + apply Forall_forall. intros o (a & b & ->)%loop_results_coord.
      exists a, b, (- a - b). split; [done|lia].
    + eauto.
  - rewrite neighbours_coord.
    repeat constructor; do 3 eexists; (split; [reflexivity|lia]).
Qed.


End neighbours.

(** * Rounding to a double *)
Section rounding.

(** Rounding to a double moves an integer by at most 2^-53 of its
    magnitude. *)
Lemma round_error n : 2 ^ 53 * Z.abs (Double.round n - n) ≤ Z.abs n.
Proof.
  unfold Double.round.
  set (e := Z.log2 (Z.abs n) - 52).
  destruct (Z.leb_spec e 0) as [He|He].
  { rewrite Z.sub_diag. simpl. lia. }
  assert (0 < Z.abs n) as Hpos.
  { destruct (decide (Z.abs n = 0)) as [H0|]; [|lia].
    unfold e in He. rewrite H0 in He. simpl in He. lia. }
  pose proof (Z.log2_spec (Z.abs n) Hpos) as [Hlo _].
  replace (Z.log2 (Z.abs n)) with (53 + (e - 1)) in Hlo by (unfold e; lia).
  rewrite Z.pow_add_r in Hlo by lia.
  assert (2 ^ e = 2 * 2 ^ (e - 1)) as Hu.
  { replace e with (1 + (e - 1)) at 1 by lia.
    rewrite Z.pow_add_r by lia. done. }
  set (h := 2 ^ (e - 1)) in *.
  assert (0 < h) by (apply Z.pow_pos_nonneg; lia).
  rewrite Hu.
  pose proof (Z.div_mod n (2 * h) ltac:(lia)) as Hdiv.
  pose proof (Z.mod_pos_bound n (2 * h) ltac:(lia)) as Hmod.
  set (q := n / (2 * h)) in *. set (r := n mod (2 * h)) in *.
  clearbody q r h. clear Hu.
  destruct (Z.ltb_spec r h); [lia|].
  destruct (Z.ltb_spec h r); [lia|].
  destruct (Z.even q); lia.
Qed.

End rounding.

(** * The vertices of a hexagon *)
Section hex_points.
Import Hex.
Local Open Scope R_scope.

Lemma powerRZ_2_IZR j : (0 ≤ j)%Z → powerRZ 2 j = IZR (2 ^ j).
Proof.
  intros Hj. rewrite <-(Z2Nat.id j) by done.
  by rewrite <-pow_powerRZ, pow_IZR.
Qed.

Lemma powerRZ_2_neg j : (0 ≤ j)%Z → powerRZ 2 (- j) = / IZR (2 ^ j).
Proof. intros Hj. by rewrite powerRZ_neg', powerRZ_2_IZR. Qed.

Lemma value_neg x : value (neg x) = - value x.
Proof. unfold value, neg. simpl. rewrite opp_IZR. ring. Qed.

Lemma value_half x : value (scale2 (-1) x) = value x / 2.
Proof.
  unfold value, scale2. simpl fst. simpl snd.
  rewrite powerRZ_add by lra.
  change (powerRZ 2 (-1)) with (/ (2 * 1)). field.
Qed.

Lemma value_zero : value (0%Z, 0%Z) = 0.
Proof. unfold value. simpl. ring. Qed.

(** [Math.sqrt(3)] is within half a unit in the last place of the
    square root of 3. *)
Lemma sqrt3_double :
  - / 2 <= 7800463371553962 - 4503599627370496 * sqrt 3 <= / 2.
Proof.
  pose proof (sqrt_pos 3) as Hpos.
  pose proof (sqrt_sqrt 3 ltac:(lra)) as Hsq.
  split; nra.
Qed.

(** The three-decimal rounding of the double product
    [Math.sqrt(3) / 2 * width], against the real [sqrt 3 * size]. *)
Lemma height_bound m e :
  (2 ^ 52 ≤ m < 2 ^ 53)%Z → (-1052 ≤ e ≤ 8)%Z →
  (0 ≤ height (m, e))%Z
  ∧ Rabs (IZR (height (m, e)) / 1000 - sqrt 3 * value (m, e))
    <= / 2000 + value (m, e) / 2 ^ 50.
Proof.
  intros Hm He.
  unfold height, width, mul, scale2, sqrt3, toFixed3, value.
  cbn [fst snd].
  set (N := (7800463371553962 * m)%Z).
  pose proof (round_error N) as Herr.
  set (r := Double.round N) in *.
  assert (0 < r)%Z as Hr by lia.
  replace (-52 + -1 + (e + 1))%Z with (e - 52)%Z by lia.
  destruct (Z.leb_spec 0 (e - 52)) as [?|_]; [lia|].
  rewrite Z.abs_eq, (Z.sgn_pos r), Z.mul_1_l by lia.
  replace (- (e - 52))%Z with (44 + (8 - e))%Z by lia.
  replace (1 - (e - 52))%Z with (1 + (44 + (8 - e)))%Z by lia.
  rewrite (Z.pow_add_r 2 1), (Z.pow_add_r 2 44) by lia.
  assert (powerRZ 2 e = 256 / IZR (2 ^ (8 - e))) as ->.
  { replace e with (8 + - (8 - e))%Z at 1 by lia.
    rewrite powerRZ_add, powerRZ_2_neg by (lra || lia).
    change (powerRZ 2 8) with (2 * (2 * (2 * (2 * (2 * (2 * (2 * (2 * 1)))))))).
    field. apply not_0_IZR. apply Z.pow_nonzero; lia. }
  assert (0 < 2 ^ (8 - e))%Z as HJ by (apply Z.pow_pos_nonneg; lia).
  set (J := (2 ^ (8 - e))%Z) in *.
  set (D := (2 ^ 44 * J)%Z).
  pose proof (Z.div_mod (2000 * r + D) (2 ^ 1 * D) ltac:(lia)) as Hdiv.
  pose proof (Z.mod_pos_bound (2000 * r + D) (2 ^ 1 * D) ltac:(lia)) as Hmod.
  set (n := ((2000 * r + D) / (2 ^ 1 * D))%Z) in *.
  set (k := ((2000 * r + D) mod (2 ^ 1 * D))%Z) in *.
  assert (0 ≤ n)%Z as Hn by (apply Z.div_pos; lia).
  split; [exact Hn|].
  assert (2 * D * n ≤ 2000 * r + D < 2 * D * n + 2 * D)%Z as [Hn1 Hn2]
    by lia.
  assert (2 ^ 53 * (r - N) ≤ N)%Z as He1 by lia.
  assert (2 ^ 53 * (N - r) ≤ N)%Z as He2 by lia.
  apply IZR_le in Hn1, He1, He2. apply IZR_lt in Hn2, HJ.
  destruct Hm as [Hm1 Hm2]. apply IZR_le in Hm1. apply IZR_lt in Hm2.
  unfold D, N in *.
  push_IZR Hn1. push_IZR Hn2. push_IZR He1. push_IZR He2.
  change (IZR (2 ^ 53)) with 9007199254740992 in *.
  change (IZR (2 ^ 52)) with 4503599627370496 in *.
  change (IZR (2 ^ 44)) with 17592186044416 in *.
  replace (2 ^ 50) with 1125899906842624 by lra.
  pose proof sqrt3_double as Hs.
  set (jr := IZR J) in *. set (mr := IZR m) in *. set (rr := IZR r) in *.
  set (nr := IZR n) in *. set (t := sqrt 3) in *.
  clearbody jr mr rr nr t.
  assert (0 <= mr * (/ 2 - (7800463371553962 - 4503599627370496 * t)))
    by (apply Rmult_le_pos; lra).
  assert (0 <= mr * (/ 2 + (7800463371553962 - 4503599627370496 * t)))
    by (apply Rmult_le_pos; lra).
  apply Rabs_le.
  assert (0 < 17592186044416 * jr) as Hd by lra.
  split.
  - apply (Rmult_le_reg_r (2000 * (17592186044416 * jr))); [lra|].
    field_simplify; [|lra..]. lra.
  - apply (Rmult_le_reg_r (2000 * (17592186044416 * jr))); [lra|].
    field_simplify; [|lra..]. lra.
Qed.

(** Reading a decimal with three places back as a number gives the
    double nearest to it, within 2^-52 of its magnitude. *)
Lemma of_thousandths_error n :
  (0 ≤ n)%Z →
  Rabs (value (of_thousandths n) - IZR n / 1000)
  <= IZR n / 1000 / 2 ^ 52.
Proof.
  intros Hn. unfold of_thousandths.
  destruct (Z.eqb_spec n 0) as [->|Hne].
  { rewrite value_zero. replace (0 - 0 / 1000) with 0 by lra.
    rewrite Rabs_R0. lra. }
  assert (0 < n)%Z as Hpos by lia.
  rewrite Z.abs_eq, (Z.sgn_pos n), Z.mul_1_l by lia.
  set (t := Z.max 0 (66 - Z.log2 n)).
  assert (0 ≤ t)%Z as Ht by lia.
  assert (0 < 2 ^ t)%Z as HT by (apply Z.pow_pos_nonneg; lia).
  assert (2 ^ 66 ≤ n * 2 ^ t)%Z as Hbig.
  { pose proof (Z.log2_spec n Hpos) as [Hlo _].
    destruct (Z.le_gt_cases (Z.log2 n) 66) as [Hl|Hl].
    - replace 66%Z with (Z.log2 n + t)%Z by lia.
      rewrite Z.pow_add_r by (pose proof (Z.log2_nonneg n); lia).
      apply Z.mul_le_mono_nonneg_r; lia.
    - replace t with 0%Z by lia. rewrite Z.mul_1_r.
      etrans; [|exact Hlo]. apply Z.pow_le_mono_r; lia. }
  set (T := (2 ^ t)%Z) in *. set (num := (n * T)%Z) in *.
  pose proof (Z.div_mod num 1000 ltac:(lia)) as Hdiv.
  pose proof (Z.mod_pos_bound num 1000 ltac:(lia)) as Hmod.
  set (q := (num / 1000)%Z) in *. set (k := (num mod 1000)%Z) in *.
  set (Q := (2 * q + (if (k =? 0)%Z then 0 else 1))%Z).
  assert (-1000 ≤ 1000 * Q - 2 * num ≤ 1000)%Z as [HQ1 HQ2].
  { unfold Q. destruct (Z.eqb_spec k 0); lia. }
  assert (0 < Q)%Z as HQpos by (unfold Q; destruct (Z.eqb_spec k 0); lia).
  pose proof (round_error Q) as Herr.
  set (r := Double.round Q) in *.
  assert (2 ^ 53 * (r - Q) ≤ Q)%Z as He1 by lia.
  assert (2 ^ 53 * (Q - r) ≤ Q)%Z as He2 by lia.
  unfold value. cbn [fst snd].
  replace (- t - 1)%Z with (- (t + 1))%Z by lia.
  rewrite powerRZ_2_neg, Z.pow_add_r by lia.
  fold T. change (2 ^ 1)%Z with 2%Z.
  assert (IZR num = IZR n * IZR T) as Hnum by (unfold num; apply mult_IZR).
  apply IZR_le in HQ1, HQ2, He1, He2, Hbig. apply IZR_lt in HT.
  push_IZR HQ1. push_IZR HQ2. push_IZR He1. push_IZR He2.
  rewrite mult_IZR.
  change (IZR (2 ^ 53)) with 9007199254740992 in *.
  change (IZR (2 ^ 66)) with 73786976294838206464 in *.
  replace (2 ^ 52) with 4503599627370496 by lra.
  rewrite Hnum in *.
  set (nr := IZR n) in *. set (Tr := IZR T) in *. set (rr := IZR r) in *.
  set (Qr := IZR Q) in *. clearbody nr Tr rr Qr.
  apply Rabs_le. split.
  - apply (Rmult_le_reg_r (2000 * Tr)); [lra|].
    field_simplify; [|lra..]. lra.
  - apply (Rmult_le_reg_r (2000 * Tr)); [lra|].
    field_simplify; [|lra..]. lra.
Qed.

(** C6, as the code has it: for every double [size = m * 2^e] from
    2^-1000 up to 2^61, the six offsets are, in this order, (-size,0),
    (-size/2,h/2), (size/2,h/2), (size,0), (size/2,-h/2), (-size/2,-h/2),
    where [h] is the double nearest to [k], the three-decimal rounding
    of the double product [Math.sqrt(3) / 2 * width]: [k] is a multiple
    of 0.001 within [0.0005 + size / 2^50] of [sqrt 3 * size], and [h] is
    within [k / 2^52] of [k]. *)
Theorem points_with_rounded_height m e :
  (2 ^ 52 ≤ m < 2 ^ 53)%Z → (-1052 ≤ e ≤ 8)%Z →
  let size := value (m, e) in
  let k := IZR (height (m, e)) / 1000 in
  let h := value (of_thousandths (height (m, e))) in
  map (λ v, (value v.1, value v.2)) (points (m, e))
  = [ (- size, 0); (- size / 2, h / 2); (size / 2, h / 2); (size, 0);
      (size / 2, - h / 2); (- size / 2, - h / 2) ]
  ∧ Rabs (k - sqrt 3 * size) <= / 2000 + size / 2 ^ 50
  ∧ Rabs (h - k) <= k / 2 ^ 52.
Proof.
  intros Hm He size k h.
  destruct (height_bound m e Hm He) as [Hpos Hk].
  split; [|split; [exact Hk|by apply of_thousandths_error]].
  unfold points. cbn [map fst snd].
  rewrite !value_half, !value_neg, value_zero. reflexivity.
Qed.

Lemma points_with_rounded_height_witness :
  let size := value (4503599627370496, -52)%Z in
  let k := IZR (height (4503599627370496, -52)%Z) / 1000 in
  let h := value (of_thousandths (height (4503599627370496, -52)%Z)) in
  map (λ v, (value v.1, value v.2)) (points (4503599627370496, -52)%Z)
  = [ (- size, 0); (- size / 2, h / 2); (size / 2, h / 2); (size, 0);
      (size / 2, - h / 2); (- size / 2, - h / 2) ]
  ∧ Rabs (k - sqrt 3 * size) <= / 2000 + size / 2 ^ 50
  ∧ Rabs (h - k) <= k / 2 ^ 52.
Proof. apply points_with_rounded_height; lia. Defined.

Lemma value_one : value (4503599627370496, -52)%Z = 1.
Proof.
  unfold value. cbn [fst snd].
  change (-52)%Z with (- (52))%Z.
  rewrite (powerRZ_2_neg 52) by lia.
  change (IZR (2 ^ 52)) with 4503599627370496. field.
Qed.

(** C6 fails as stated: for [size = 1] the height is printed as 1.732
    and the second vertex is (-0.5, 0.866), not (-0.5, sqrt(3)/2),
    because the height is rounded to three decimals before it is
    halved. *)
Lemma points_1_not_exact :
  value (4503599627370496, -52)%Z = 1
  ∧ height (4503599627370496, -52)%Z = 1732%Z
  ∧ map (λ v, (value v.1, value v.2)) (points (4503599627370496, -52)%Z)
    ≠ [ (- (1), 0); (- (1) / 2, sqrt 3 * 1 / 2); (1 / 2, sqrt 3 * 1 / 2);
        (1, 0); (1 / 2, - (sqrt 3 * 1) / 2);
        (- (1) / 2, - (sqrt 3 * 1) / 2) ].
Proof.
  split; [exact value_one|]. split; [by vm_compute|].
  unfold points. cbn [map fst snd].
  replace (height (4503599627370496, -52)%Z) with 1732%Z by (by vm_compute).
  replace (of_thousandths 1732) with (249607505747382368, -57)%Z
    by (by vm_compute).
  rewrite !value_half.
  intros Hy.
  apply (f_equal (λ l, snd (nth 1 l (0, 0)))) in Hy. cbn [nth snd] in Hy.
  unfold value in Hy. cbn [fst snd] in Hy.
  change (-57)%Z with (- (57))%Z in Hy.
  rewrite (powerRZ_2_neg 57) in Hy by lia.
  change (IZR (2 ^ 57)) with 144115188075855872 in Hy.
  pose proof (sqrt_pos 3) as Hpos.
  pose proof (sqrt_sqrt 3 ltac:(lra)) as Hsq.
  assert (sqrt 3 = 249607505747382368 / 144115188075855872) as Hs by lra.
  rewrite Hs in Hsq. lra.
Qed.

End hex_points.

(** * Further properties of the range query *)
Section disk_algebra.
Import HexGrid.

Lemma disk_keys_dom c r :
  disk_keys c r = list_to_set (key_of <$> _getNearGrids c r).
Proof.
  unfold disk_keys.
  destruct (getLimitNeighbors_dom c r) as (m & -> & Hdom). done.
Qed.

(** Membership of an integer triple in the keys built around an integer
    center, on or off the plane: the center itself, or an on-plane point
    whose offsets are bounded by the range. *)
Lemma disk_keys_coord cx cy cz r px py pz :
  key_of (coord px py pz) ∈ disk_keys (coord cx cy cz) r ↔
  (px = cx ∧ py = cy ∧ pz = cz)
  ∨ (pz = - px - py
     ∧ Z.abs (px - cx) ≤ r ∧ Z.abs (py - cy) ≤ r
     ∧ Z.abs ((px - cx) + (py - cy)) ≤ r).
Proof.
  rewrite disk_keys_dom, _getNearGrids_coord, fmap_app, elem_of_list_to_set.
  rewrite elem_of_app, key_in_loop_results, elem_of_loop_results_coord.
  split.
  - intros [?|Hkey%list_elem_of_singleton]; [by right|left].
    by apply key_of_coord_inj in Hkey.
  - intros [(-> & -> & ->)|?]; [right|by left].
    by apply list_elem_of_singleton.
Qed.

(** The entries of the range query around any object. *)
Lemma elem_of_getNearGrids o c r :
  o ∈ _getNearGrids c r ↔
  o = c
  ∨ ∃ dx dy, - r ≤ dx ≤ r
      ∧ Z.max (- r) (- dx - r) ≤ dy ≤ Z.min r (- dx + r)
      ∧ o = Obj {| x_of := jadd (field_x c) (JNum dx);
                   y_of := jadd (field_y c) (JNum dy);
                   z_of := jsub (jsub (jsub (jneg (field_x c)) (field_y c))
                                   (JNum dx)) (JNum dy) |}.
Proof.
  unfold _getNearGrids. rewrite elem_of_app, list_elem_of_singleton.
  rewrite list_elem_of_bind. split.
  - intros [(dx & (dy & Ho & Hdy)%list_elem_of_bind & Hdx)|?]; [right|by left].
    apply list_elem_of_singleton in Ho.
    apply elem_of_for_lt in Hdx, Hdy.
    exists dx, dy. split_and!; [lia..|done].
  - intros [?|(dx & dy & Hdx & Hdy & ->)]; [by right|left].
    exists dx. split; [|apply elem_of_for_lt; lia].
    apply list_elem_of_bind. exists dy.
    split; [by apply list_elem_of_singleton|apply elem_of_for_lt; lia].
Qed.

(** A larger range highlights at least the same cells, around any
    center object and for any two ranges. *)
Theorem disk_keys_monotone c r r' :
  r ≤ r' → disk_keys c r ⊆ disk_keys c r'.
Proof.
  intros Hr k. rewrite !disk_keys_dom, !elem_of_list_to_set.
  intros (o & -> & Ho)%list_elem_of_fmap.
  apply list_elem_of_fmap. exists o. split; [done|].
  apply elem_of_getNearGrids in Ho as [->|(dx & dy & Hdx & Hdy & ->)];
    apply elem_of_getNearGrids; [by left|right].
  exists dx, dy. split_and!; [lia..|done].
Qed.

Lemma disk_keys_monotone_witness :
  disk_keys (coord 1 (-1) 0) 1 ⊆ disk_keys (coord 1 (-1) 0) 3.
Proof. apply disk_keys_monotone. lia. Defined.

(** On exact integers, reachability is symmetric: between two cube
    coordinates, one is
    highlighted around the other exactly when the other is highlighted
    around the one, for every range. *)
Theorem disk_keys_symmetric cx cy cz px py pz r :
  cx + cy + cz = 0 → px + py + pz = 0 →
  key_of (coord px py pz) ∈ disk_keys (coord cx cy cz) r ↔
  key_of (coord cx cy cz) ∈ disk_keys (coord px py pz) r.
Proof. intros Hc Hp. rewrite !disk_keys_coord. lia. Qed.


(** On exact integers, the range query commutes with translation by an
    on-plane vector. *)
Theorem disk_keys_translate cx cy cz px py pz vx vy vz r :
  vx + vy + vz = 0 →
  key_of (coord (px + vx) (py + vy) (pz + vz))
    ∈ disk_keys (coord (cx + vx) (cy + vy) (cz + vz)) r ↔
  key_of (coord px py pz) ∈ disk_keys (coord cx cy cz) r.
Proof. intros Hv. rewrite !disk_keys_coord. lia. Qed.


(** On exact integers, two steps of range [r] stay within range
    [2 * r]: a cell highlighted
    around a cell that is highlighted around [c] is highlighted around
    [c] for the doubled range. *)
Theorem disk_keys_two_steps cx cy cz tx ty tz px py pz r :
  key_of (coord tx ty tz) ∈ disk_keys (coord cx cy cz) r →
  key_of (coord px py pz) ∈ disk_keys (coord tx ty tz) r →
  key_of (coord px py pz) ∈ disk_keys (coord cx cy cz) (2 * r).
Proof.
  rewrite !disk_keys_coord, !Z.abs_le.
  intros [(-> & -> & ->)|Ht] [(-> & -> & ->)|Hp]; [by left|right; lia..].
Qed.


End disk_algebra.

(** * The size of the result list, centers off the plane, and the ring of
    six neighbours *)
Section ring.





Lemma div2_eq_1 n : n / 2 = 1 ↔ n = 2 ∨ n = 3.
Proof.
  pose proof (Z.div_mod n 2 ltac:(lia)) as Hdiv.
  pose proof (Z.mod_pos_bound n 2 ltac:(lia)) as Hmod.
  set (q := n / 2) in *. set (k := n mod 2) in *. clearbody q k.
  lia.
Qed.

Lemma hexDistance_eq_1_iff x y z px py pz :
  x + y + z = 0 → px + py + pz = 0 →
  hexDistance (x, y, z) (px, py, pz) = 1 ↔
  (px = x - 1 ∧ py = y ∧ pz = z + 1)
  ∨ (px = x - 1 ∧ py = y + 1 ∧ pz = z)
  ∨ (px = x ∧ py = y - 1 ∧ pz = z + 1)
  ∨ (px = x + 1 ∧ py = y - 1 ∧ pz = z)
  ∨ (px = x ∧ py = y + 1 ∧ pz = z - 1)
  ∨ (px = x + 1 ∧ py = y ∧ pz = z - 1).
Proof.
  intros Hc Hp. unfold hexDistance. rewrite div2_eq_1.
  assert (pz = - px - py) as -> by lia.
  assert (z = - x - y) as -> by lia.
  clear Hc Hp.
  destruct (Z.abs_spec (x - px)) as [[? ->]|[? ->]],
           (Z.abs_spec (y - py)) as [[? ->]|[? ->]],
           (Z.abs_spec (- x - y - (- px - py))) as [[? ->]|[? ->]];
    lia.
Qed.

Lemma elem_of_neighbours o x y z :
  o ∈ HexGridV1._getNearGrids (coord x y z) ↔
  o = coord (x - 1) y (z + 1) ∨ o = coord (x - 1) (y + 1) z
  ∨ o = coord x (y - 1) (z + 1) ∨ o = coord (x + 1) (y - 1) z
  ∨ o = coord x (y + 1) (z - 1) ∨ o = coord (x + 1) y (z - 1).
Proof. rewrite neighbours_coord. set_solver. Qed.

Lemma key_in_neighbours px py pz x y z :
  key_of (coord px py pz) ∈ key_of <$> HexGridV1._getNearGrids (coord x y z) ↔
  coord px py pz ∈ HexGridV1._getNearGrids (coord x y z).
Proof.
  rewrite list_elem_of_fmap. split; [|by eauto].
  intros (o & Hkey & Ho).
  assert (∃ g, o = Obj g) as [g ->].
  { apply elem_of_neighbours in Ho. destruct_or!; subst; eauto. }
  apply key_of_Obj_inj in Hkey as <-. exact Ho.
Qed.

Lemma NoDup_neighbour_keys x y z :
  NoDup (key_of <$> HexGridV1._getNearGrids (coord x y z)).
Proof.
  apply NoDup_fmap_2_strong.
  - intros o1 o2 Ho1 Ho2 Hkey.
    assert (∃ g, o1 = Obj g) as [g1 ->].
    { apply elem_of_neighbours in Ho1. destruct_or!; subst; eauto. }
    assert (∃ g, o2 = Obj g) as [g2 ->].
    { apply elem_of_neighbours in Ho2. destruct_or!; subst; eauto. }
    by apply key_of_Obj_inj in Hkey as ->.
  - rewrite neighbours_coord.
    repeat (apply NoDup_cons; split;
            [rewrite ?not_elem_of_cons; split_and?;
             try apply not_elem_of_nil; intros [= ]; lia|]).
    apply NoDup_nil_2.
Qed.

(** On exact integers: a click in the earlier revision, with a callback
    configured, is
    always accepted: the callback is invoked with the clicked cell and
    the new colour map has six keys, those of the cells at hex distance
    exactly 1; the clicked cell itself is not among them. *)
Theorem v1_click_highlights_ring cb st x y z :
  x + y + z = 0 →
  ∃ m, HexGridV1.onClick (Some cb) st (coord x y z)
       = (Some m, [Invoke cb (coord x y z)])
       ∧ size (dom m) = 6%nat
       ∧ (key_of (coord x y z) ∉ dom m)
       ∧ ∀ px py pz, px + py + pz = 0 →
           (key_of (coord px py pz) ∈ dom m ↔
            hexDistance (x, y, z) (px, py, pz) = 1).
Proof.
  intros Hc.
  set (m := foldl (λ colorMap grid,
                     <[key_of grid := HexGridV1.highlight]> colorMap)
                  (∅ : gmap string string)
                  (HexGridV1._getNearGrids (coord x y z))).
  assert (dom m = list_to_set
                    (key_of <$> HexGridV1._getNearGrids (coord x y z)))
    as Hdom.
  { unfold m. by rewrite dom_foldl_insert, dom_empty_L, union_empty_l_L. }
  assert (∀ px py pz,
            key_of (coord px py pz) ∈ dom m ↔
            (px = x - 1 ∧ py = y ∧ pz = z + 1)
            ∨ (px = x - 1 ∧ py = y + 1 ∧ pz = z)
            ∨ (px = x ∧ py = y - 1 ∧ pz = z + 1)
            ∨ (px = x + 1 ∧ py = y - 1 ∧ pz = z)
            ∨ (px = x ∧ py = y + 1 ∧ pz = z - 1)
            ∨ (px = x + 1 ∧ py = y ∧ pz = z - 1)) as Hmem.
  { intros px py pz.
    rewrite Hdom, elem_of_list_to_set, key_in_neighbours, elem_of_neighbours.
    unfold coord. split; intros H; destruct_or!; simplify_eq; auto 10.
    all: destruct_and!; subst; auto 10. }
  exists m. split; [reflexivity|]. split_and!.
  - rewrite Hdom, size_list_to_set by apply NoDup_neighbour_keys. done.
  - rewrite Hmem. lia.
  - intros px py pz Hp. rewrite Hmem. by rewrite hexDistance_eq_1_iff.
Qed.


(** On exact integers: the disk of range 1 is the center and the six
    neighbours of the
    earlier revision: the two revisions of [_getNearGrids] agree there. *)
Theorem disk_of_range_1_is_center_and_ring x y z :
  x + y + z = 0 →
  disk_keys (coord x y z) 1
  = {[ key_of (coord x y z) ]}
    ∪ list_to_set (key_of <$> HexGridV1._getNearGrids (coord x y z)).
Proof.
  intros Hc. rewrite disk_keys_dom, _getNearGrids_coord, fmap_app.
  rewrite list_to_set_app_L.
  change (key_of <$> [coord x y z]) with [key_of (coord x y z)].
  rewrite list_to_set_singleton_L.
  assert (list_to_set (key_of <$> loop_results x y 1)
          =@{gset string}
          {[ key_of (coord x y z) ]}
          ∪ list_to_set (key_of <$> HexGridV1._getNearGrids (coord x y z)))
    as ->; [|set_solver].
  apply set_eq. intros k.
  rewrite elem_of_union, elem_of_singleton, !elem_of_list_to_set.
  rewrite !list_elem_of_fmap. split.
  - intros (o & -> & Ho).
    destruct (loop_results_coord _ _ _ _ Ho) as (a & b & ->).
    apply elem_of_loop_results_coord in Ho as (_ & Ha & Hb & Hab).
    destruct (decide (a = x ∧ b = y)) as [[-> ->]|Hne].
    { left. do 2 f_equal. unfold coord. do 2 f_equal. f_equal. lia. }
    right. exists (coord a b (- a - b)). split; [done|].
    apply elem_of_neighbours. unfold coord.
    assert ((a = x - 1 ∧ b = y) ∨ (a = x - 1 ∧ b = y + 1)
            ∨ (a = x ∧ b = y - 1) ∨ (a = x + 1 ∧ b = y - 1)
            ∨ (a = x ∧ b = y + 1) ∨ (a = x + 1 ∧ b = y)) as Hcase by lia.
    destruct_or!; destruct_and!; subst;
      [left|right; left|do 2 right; left|do 3 right; left
      |do 4 right; left|do 5 right];
      do 2 f_equal; f_equal; lia.
  - intros [->|(o & -> & Ho)].
    + exists (coord x y z). split; [done|].
      by apply center_in_loop_results.
    + exists o. split; [done|].
      apply elem_of_neighbours in Ho.
      destruct_or!; subst; apply elem_of_loop_results_coord; lia.
Qed.


End ring.

(** * The outline of the grid *)
Section outline.
Import HexGrid.

Lemma result_foldl_push {A B} (g : B → list A)
    (body : list A → B → result (list A)) (l : list B) (acc : list A) :
  (∀ acc b, b ∈ l → body acc b = Ok (acc ++ g b)) →
  result_foldl body acc l = Ok (acc ++ (l ≫= g)).
Proof.
  revert acc. induction l as [|b l IH]; intros acc Hbody;
    cbn [result_foldl].
  - by rewrite app_nil_r.
  - rewrite Hbody by apply list_elem_of_here. cbn [result_bind].
    rewrite IH by (intros; apply Hbody; by apply list_elem_of_further).
    by rewrite bind_cons, app_assoc.
Qed.

Lemma _getCellColor_defined st m x y z :
  colorMap st = Some m → _getCellColor st x y z = Ok (color_in m x y z).
Proof.
  intros Hm. unfold _getCellColor, color_in. rewrite Hm.
  case_bool_decide as Hin; [done|].
  apply not_elem_of_dom in Hin. by rewrite Hin.
Qed.

(** With an outline and a colour map in the state, [_getGrid] returns the
    elements of the two loops. *)
Lemma _getGrid_defined l st m :
  outline l = true → colorMap st = Some m →
  _getGrid l st
  = Ok (Some (grid_hexes (color_in m) (cellSize l) (levels l))).
Proof.
  intros Hout Hm. unfold _getGrid. rewrite Hout. simpl negb. cbv iota.
  rewrite (result_foldl_push
    (λ x, y ← for_le (- levels l) (levels l);
          if bool_decide (Z.abs (- x - y) > levels l) then []
          else [ {| hex_key := cell_key x y (- x - y);
                    fill := color_in m x y (- x - y);
                    hex_x := x; hex_y := y; hex_z := - x - y;
                    hex_size := cellSize l |} ])).
  { done. }
  intros acc x _.
  apply (result_foldl_push
    (λ y, if bool_decide (Z.abs (- x - y) > levels l) then []
          else [ {| hex_key := cell_key x y (- x - y);
                    fill := color_in m x y (- x - y);
                    hex_x := x; hex_y := y; hex_z := - x - y;
                    hex_size := cellSize l |} ])).
  intros acc' y _. case_bool_decide; [by rewrite app_nil_r|].
  by rewrite (_getCellColor_defined st m).
Qed.

Lemma elem_of_for_le i lo hi : i ∈ for_le lo hi ↔ lo ≤ i ≤ hi.
Proof. unfold for_le. rewrite elem_of_seqZ. lia. Qed.

Lemma elem_of_grid_hexes h color size r :
  h ∈ grid_hexes color size r ↔
  ∃ x y, Z.abs x ≤ r ∧ Z.abs y ≤ r ∧ Z.abs (- x - y) ≤ r
         ∧ h = {| hex_key := cell_key x y (- x - y);
                  fill := color x y (- x - y);
                  hex_x := x; hex_y := y; hex_z := - x - y;
                  hex_size := size |}.
Proof.
  unfold grid_hexes. rewrite list_elem_of_bind. split.
  - intros (x & (y & Hh & Hy)%list_elem_of_bind & Hx).
    apply elem_of_for_le in Hx, Hy.
    case_bool_decide; [by apply not_elem_of_nil in Hh|].
    apply list_elem_of_singleton in Hh.
    exists x, y. split_and!; [lia..|done].
  - intros (x & y & Hx & Hy & Hz & ->).
    exists x. split; [|apply elem_of_for_le; lia].
    apply list_elem_of_bind. exists y. split; [|apply elem_of_for_le; lia].
    rewrite bool_decide_false by lia. by apply list_elem_of_singleton.
Qed.

(** The outline is the set of cube coordinates with
    [max(|x|, |y|, |z|) <= levels]: a cell is rendered exactly when it is
    on the plane and within the levels on each axis. *)
Theorem getGrid_cells l st m x y z :
  outline l = true → colorMap st = Some m →
  ∃ hexes, _getGrid l st = Ok (Some hexes)
           ∧ ((∃ h, h ∈ hexes ∧ hex_x h = x ∧ hex_y h = y ∧ hex_z h = z) ↔
              x + y + z = 0 ∧ Z.abs x ≤ levels l ∧ Z.abs y ≤ levels l
              ∧ Z.abs z ≤ levels l).
Proof.
  intros Hout Hm. eexists. split; [by apply _getGrid_defined|]. split.
  - intros (h & (x' & y' & Hx & Hy & Hz & ->)%elem_of_grid_hexes
              & <- & <- & <-). simpl. lia.
  - intros (Hsum & Hx & Hy & Hz).
    eexists. split; [apply elem_of_grid_hexes; exists x, y|].
    + split_and!; [lia..|reflexivity].
    + simpl. split_and!; [done..|lia].
Qed.

Lemma getGrid_cells_witness :
  ∃ hexes,
    _getGrid {| levels := 2; outline := true; cellSize := 1 |}
             {| colorMap := Some ∅ |} = Ok (Some hexes)
    ∧ ((∃ h, h ∈ hexes ∧ hex_x h = 1 ∧ hex_y h = 1 ∧ hex_z h = -2) ↔
       1 + 1 + -2 = 0 ∧ Z.abs 1 ≤ 2 ∧ Z.abs 1 ≤ 2 ∧ Z.abs (-2) ≤ 2).
Proof.
  apply (getGrid_cells {| levels := 2; outline := true; cellSize := 1 |}
           {| colorMap := Some ∅ |} ∅); reflexivity.
Defined.

Lemma is_num_char_not_colon c : is_num_char c = true → not_colon c = true.
Proof.
  intros Hc. unfold not_colon.
  destruct (Ascii.eqb_spec c ":"%char) as [->|]; done.
Qed.

Lemma pretty_no_colon (n : Z) : all_chars not_colon (pretty n) = true.
Proof.
  eapply all_chars_impl; [apply is_num_char_not_colon|].
  apply all_chars_pretty_Z.
Qed.

Lemma colon_split s1 s2 r1 r2 :
  all_chars not_colon s1 = true →
  all_chars not_colon s2 = true →
  s1 +:+ ":" +:+ r1 = s2 +:+ ":" +:+ r2 →
  s1 = s2 ∧ r1 = r2.
Proof.
  revert s2. induction s1 as [|c s1 IH]; intros [|d s2];
    rewrite ?append_cons, ?append_nil; simpl.
  - intros _ _ [= ->]. done.
  - rewrite andb_true_iff. intros _ [Hd _] [= <- _]. done.
  - rewrite andb_true_iff. intros [Hc _] _ [= -> _]. done.
  - rewrite !andb_true_iff. intros [_ H1] [_ H2] [= -> Heq].
    destruct (IH s2 H1 H2 Heq) as [-> ->]. done.
Qed.

Lemma cell_key_inj x y z x' y' z' :
  cell_key x y z = cell_key x' y' z' → x = x' ∧ y = y' ∧ z = z'.
Proof.
  unfold cell_key. intros Heq.
  apply colon_split in Heq as [Hx Heq]; [|apply pretty_no_colon..].
  apply colon_split in Heq as [Hy Hz]; [|apply pretty_no_colon..].
  apply (inj pretty) in Hx, Hy, Hz. done.
Qed.

Lemma bind_nil_forall {A B} (f : A → list B) (l : list A) :
  (∀ a, a ∈ l → f a = []) → l ≫= f = [].
Proof.
  induction l as [|a l IH]; intros Hf; [done|].
  rewrite bind_cons, Hf by apply list_elem_of_here.
  apply IH. intros. apply Hf. by apply list_elem_of_further.
Qed.

(** The row of the outline at [x] has [2 * r + 1 - |x|] cells. *)
Lemma length_grid_row {A} (g : Z → A) x r :
  - r ≤ x ≤ r →
  Z.of_nat (length (y ← for_le (- r) r;
                    if bool_decide (Z.abs (- x - y) > r) then [] else [g y]))
  = 2 * r + 1 - Z.abs x.
Proof.
  intros Hx.
  set (lo := Z.max (- r) (- x - r)). set (hi := Z.min r (- x + r)).
  assert (for_le (- r) r
          = seqZ (- r) (lo + r)
            ++ seqZ lo (hi - lo + 1) ++ seqZ (hi + 1) (r - hi)) as ->.
  { unfold for_le.
    replace (r + 1 - - r) with ((lo + r) + ((hi - lo + 1) + (r - hi)))
      by lia.
    rewrite seqZ_app by lia. f_equal.
    - rewrite seqZ_app by lia. f_equal; f_equal; lia. }
  rewrite !bind_app, !length_app.
  rewrite (bind_nil_forall _ (seqZ (- r) _)).
  2:{ intros y Hy%elem_of_seqZ. rewrite bool_decide_true; [done|lia]. }
  rewrite (bind_nil_forall _ (seqZ (hi + 1) _)).
  2:{ intros y Hy%elem_of_seqZ. rewrite bool_decide_true; [done|lia]. }
  rewrite (Forall_bind_ext _ (λ y, [g y])).
  2:{ apply Forall_forall. intros y Hy%elem_of_seqZ.
      rewrite bool_decide_false; [done|lia]. }
  rewrite length_bind_singleton, length_seqZ. simpl. lia.
Qed.

Lemma length_grid_hexes color size r :
  0 ≤ r →
  Z.of_nat (length (grid_hexes color size r)) = 3 * r * r + 3 * r + 1.
Proof.
  intros Hr. unfold grid_hexes.
  match goal with |- context [mbind ?f (for_le (- r) r)] => set (body := f) end.
  assert (for_le (- r) r = seqZ (- r) r ++ seqZ 0 (r + 1)) as ->.
  { unfold for_le. replace (r + 1 - - r) with (r + (r + 1)) by lia.
    rewrite seqZ_app by lia. do 2 f_equal. lia. }
  rewrite bind_app, length_app, Nat2Z.inj_add.
  pose proof (length_bind_linear body (- r) (2 * r + 1) 1 (Z.to_nat r))
    as Hneg.
  pose proof (length_bind_linear body 0 (2 * r + 1) (-1) (Z.to_nat (r + 1)))
    as Hpos.
  rewrite !Z2Nat.id in Hneg, Hpos by lia.
  assert (∀ i, - r ≤ i ≤ r →
            Z.of_nat (length (body i)) = 2 * r + 1 - Z.abs i) as Hlen.
  { intros i Hi. unfold body. by rewrite length_grid_row. }
  specialize (Hneg ltac:(intros; rewrite Hlen; lia)).
  specialize (Hpos ltac:(intros; rewrite Hlen; lia)).
  lia.
Qed.

Lemma NoDup_grid_keys color size r :
  NoDup (hex_key <$> grid_hexes color size r).
Proof.
  apply NoDup_fmap_2_strong.
  - intros h1 h2 (x1 & y1 & _ & _ & _ & ->)%elem_of_grid_hexes
                 (x2 & y2 & _ & _ & _ & ->)%elem_of_grid_hexes.
    simpl. intros (-> & -> & _)%cell_key_inj. done.
  - unfold grid_hexes. apply NoDup_bind; [| |apply NoDup_seqZ].
    + intros x1 x2 h _ _ (y1 & Hh1 & _)%list_elem_of_bind
                         (y2 & Hh2 & _)%list_elem_of_bind.
      repeat case_bool_decide;
        try (by apply not_elem_of_nil in Hh1);
        try (by apply not_elem_of_nil in Hh2).
      apply list_elem_of_singleton in Hh1, Hh2. by simplify_eq.
    + intros x _. apply NoDup_bind; [| |apply NoDup_seqZ].
      * intros y1 y2 h _ _ Hh1 Hh2.
        repeat case_bool_decide;
          try (by apply not_elem_of_nil in Hh1);
          try (by apply not_elem_of_nil in Hh2).
        apply list_elem_of_singleton in Hh1, Hh2. by simplify_eq.
      * intros y _. case_bool_decide; [apply NoDup_nil_2|apply NoDup_singleton].
Qed.

(** For non-negative levels the outline has [3*L*L + 3*L + 1] cells, and
    no two of them share their React key [`${x}:${y}:${z}`]; for negative
    levels it is empty. *)
Theorem getGrid_size_and_keys l st m :
  outline l = true → colorMap st = Some m →
  ∃ hexes, _getGrid l st = Ok (Some hexes)
           ∧ NoDup (hex_key <$> hexes)
           ∧ Z.of_nat (length hexes)
             = if decide (0 ≤ levels l)
               then 3 * levels l * levels l + 3 * levels l + 1
               else 0.
Proof.
  intros Hout Hm. eexists. split; [by apply _getGrid_defined|].
  split; [apply NoDup_grid_keys|].
  case_decide as Hl; [by apply length_grid_hexes|].
  unfold grid_hexes, for_le. by rewrite (seqZ_nil (- levels l)) by lia.
Qed.

Lemma getGrid_size_and_keys_witness :
  ∃ hexes,
    _getGrid {| levels := 5; outline := true; cellSize := 1 |}
             {| colorMap := Some ∅ |} = Ok (Some hexes)
    ∧ NoDup (hex_key <$> hexes)
    ∧ Z.of_nat (length hexes)
      = if decide (0 ≤ 5) then 3 * 5 * 5 + 3 * 5 + 1 else 0.
Proof.
  apply (getGrid_size_and_keys {| levels := 5; outline := true; cellSize := 1 |}
           {| colorMap := Some ∅ |} ∅); reflexivity.
Defined.

End outline.

(** * Rendering after events *)
Section rendering.
Import HexGrid.

(** Every key of a colour map built by insertion carries the colour
    inserted. *)
Lemma lookup_foldl_insert (l : list JsObject) (m : gmap string string) v k :
  foldl (λ colorMap grid, <[key_of grid := v]> colorMap) m l !! k
  = if decide (k ∈ key_of <$> l) then Some v else m !! k.
Proof.
  revert m. induction l as [|o l IH]; intros m; cbn [foldl].
  - rewrite fmap_nil, decide_False by apply not_elem_of_nil. done.
  - rewrite IH, fmap_cons.
    destruct (decide (k ∈ key_of <$> l)) as [Hin|Hin].
    + by rewrite decide_True by (by apply list_elem_of_further).
    + destruct (decide (k = key_of o)) as [->|Hne].
      * rewrite decide_True by apply list_elem_of_here.
        by rewrite lookup_insert_eq.
      * rewrite decide_False by (by intros [?|?]%elem_of_cons).
        by rewrite lookup_insert_ne.
Qed.

Lemma color_in_disk c r m x y z :
  getLimitNeighbors (Some c) r = Some m →
  color_in m x y z
  = if bool_decide (key_of (coord x y z) ∈ disk_keys c r)
    then highlight else "white".
Proof.
  intros Hm. unfold color_in, disk_keys. rewrite Hm.
  injection Hm as <-. rewrite lookup_foldl_insert, lookup_empty.
  rewrite dom_foldl_insert, dom_empty_L, union_empty_l_L.
  case_decide as Hin; case_bool_decide as Hin'; try done.
  - exfalso. apply Hin'. by apply elem_of_list_to_set.
  - exfalso. apply Hin. by apply elem_of_list_to_set in Hin'.
Qed.

Lemma disk_keys_hexDistance cx cy cz px py pz r :
  cx + cy + cz = 0 → px + py + pz = 0 → 0 ≤ r →
  key_of (coord px py pz) ∈ disk_keys (coord cx cy cz) r ↔
  hexDistance (cx, cy, cz) (px, py, pz) ≤ r.
Proof.
  intros Hc Hp Hr. rewrite disk_keys_coord, hexDistance_le_iff by done. lia.
Qed.

(** After an accepted click on a cube coordinate [t], every cell of the
    outline is filled with the highlight colour when it is within the
    range of [t] in hex distance, and with white otherwise. *)
Theorem grid_after_accepted_click p st l tx ty tz :
  outline l = true → tx + ty + tz = 0 → 0 ≤ range p →
  accepted p st (coord tx ty tz) →
  ∃ st' calls hexes,
    onClick p st (coord tx ty tz) = Ok (st', calls)
    ∧ _getGrid l st' = Ok (Some hexes)
    ∧ ∀ h, h ∈ hexes →
        fill h = if bool_decide (hexDistance (tx, ty, tz)
                                   (hex_x h, hex_y h, hex_z h) ≤ range p)
                 then "#22ff66" else "white".
Proof.
  intros Hout Ht Hr (cb & _ & Hacc).
  destruct (getLimitNeighbors_dom (coord tx ty tz) (range p))
    as (m & Hm & _).
  eexists _, _, _. split; [exact Hacc|].
  split; [apply (_getGrid_defined _ _ m); [done|by rewrite <-Hm]|].
  intros h (x & y & _ & _ & _ & ->)%elem_of_grid_hexes.
  cbn [fill hex_x hex_y hex_z].
  rewrite (color_in_disk _ _ _ _ _ _ Hm).
  rewrite (bool_decide_ext _ _
             (disk_keys_hexDistance tx ty tz x y (- x - y) (range p)
                Ht ltac:(lia) Hr)).
  done.
Qed.

Lemma grid_after_accepted_click_witness :
  ∃ st' calls hexes,
    onClick token_at_origin {| colorMap := Some ∅ |} (coord 1 0 (-1))
    = Ok (st', calls)
    ∧ _getGrid {| levels := 2; outline := true; cellSize := 1 |} st'
      = Ok (Some hexes)
    ∧ ∀ h, h ∈ hexes →
        fill h = if bool_decide (hexDistance (1, 0, -1)
                                   (hex_x h, hex_y h, hex_z h)
                                 ≤ range token_at_origin)
                 then "#22ff66" else "white".
Proof.
  apply (grid_after_accepted_click token_at_origin {| colorMap := Some ∅ |}
           {| levels := 2; outline := true; cellSize := 1 |} 1 0 (-1));
    [reflexivity|lia|by vm_compute|].
  exists (Fn 0). split; [reflexivity|by vm_compute].
Defined.

(** The first render shows no highlight: after mounting a grid with a
    single token, every cell of the outline is white, whatever the
    token's position, the range and the [colorMap] prop. *)
Theorem first_render_is_white p l tok :
  outline l = true → children p = Some (Element tok) →
  ∃ st hexes, mount p = Ok st
              ∧ _getGrid l st = Ok (Some hexes)
              ∧ ∀ h, h ∈ hexes → fill h = "white".
Proof.
  intros Hout Htok.
  destruct (getLimitNeighbors_dom (Element tok) (range p)) as (m & Hm & _).
  assert (mount p = Ok {| colorMap := Some m |}) as Hmount.
  { unfold mount, componentWillMount. by rewrite Htok, Hm. }
  eexists _, _. split; [exact Hmount|].
  split; [by apply (_getGrid_defined _ _ m)|].
  intros h (x & y & _ & _ & _ & ->)%elem_of_grid_hexes. simpl.
  destruct (mount_highlights_no_coord p tok x y (- x - y) Htok)
    as (st & Hst & Hnot).
  rewrite Hmount in Hst. injection Hst as <-.
  unfold highlighted in Hnot. simpl in Hnot.
  apply not_elem_of_dom in Hnot. unfold color_in. by rewrite Hnot.
Qed.

Lemma first_render_is_white_witness :
  ∃ st hexes,
    mount token_at_origin = Ok st
    ∧ _getGrid {| levels := 2; outline := true; cellSize := 1 |} st
      = Ok (Some hexes)
    ∧ ∀ h, h ∈ hexes → fill h = "white".
Proof.
  apply (first_render_is_white token_at_origin
           {| levels := 2; outline := true; cellSize := 1 |}
           (XYZ (JNum 0) (JNum 0) (JNum 0))); reflexivity.
Defined.

(** A click on a rendered cell reaches the grid's handler with the
    cell's coordinates: with a callback configured and the token on a
    cube coordinate [c], it is accepted when the cell is within the range
    of [c] in hex distance and changes nothing otherwise. *)
Theorem click_on_rendered_cell p st l m cb cx cy cz :
  outline l = true → colorMap st = Some m →
  onClick_prop p = Some cb →
  children p = Some (Element (XYZ (JNum cx) (JNum cy) (JNum cz))) →
  cx + cy + cz = 0 → 0 ≤ range p →
  ∃ hexes,
    _getGrid l st = Ok (Some hexes)
    ∧ ∀ h, h ∈ hexes →
        click_cell p st h
        = if bool_decide (hexDistance (cx, cy, cz)
                            (hex_x h, hex_y h, hex_z h) ≤ range p)
          then Ok ({| colorMap :=
                        getLimitNeighbors
                          (Some (coord (hex_x h) (hex_y h) (hex_z h)))
                          (range p) |},
                   [Invoke cb (coord (hex_x h) (hex_y h) (hex_z h))])
          else Ok (st, []).
Proof.
  intros Hout Hm Hcb Htok Hc Hr.
  eexists. split; [by apply (_getGrid_defined _ _ m)|].
  intros h (x & y & _ & _ & _ & ->)%elem_of_grid_hexes.
  cbn [hex_x hex_y hex_z].
  unfold click_cell, Hex.onClick. cbn [result_bind hex_x hex_y hex_z].
  destruct (onClick_token p st (coord x y (- x - y)) cb _ Hcb Htok)
    as (disk & Hdisk & ->).
  assert (dom disk = disk_keys (coord cx cy cz) (range p)) as ->.
  { unfold disk_keys, coord. by rewrite Hdisk. }
  rewrite (bool_decide_ext _ _
             (disk_keys_hexDistance cx cy cz x y (- x - y) (range p)
                Hc ltac:(lia) Hr)).
  done.
Qed.

Lemma click_on_rendered_cell_witness :
  ∃ hexes,
    _getGrid {| levels := 2; outline := true; cellSize := 1 |}
             {| colorMap := Some ∅ |} = Ok (Some hexes)
    ∧ ∀ h, h ∈ hexes →
        click_cell token_at_origin {| colorMap := Some ∅ |} h
        = if bool_decide (hexDistance (0, 0, 0)
                            (hex_x h, hex_y h, hex_z h)
                          ≤ range token_at_origin)
          then Ok ({| colorMap :=
                        getLimitNeighbors
                          (Some (coord (hex_x h) (hex_y h) (hex_z h)))
                          (range token_at_origin) |},
                   [Invoke (Fn 0) (coord (hex_x h) (hex_y h) (hex_z h))])
          else Ok ({| colorMap := Some ∅ |}, []).
Proof.
  apply (click_on_rendered_cell token_at_origin {| colorMap := Some ∅ |}
           {| levels := 2; outline := true; cellSize := 1 |} ∅ (Fn 0) 0 0 0);
    try reflexivity; by vm_compute.
Defined.

(** Clicking the same cell again, with the props unchanged, is decided
    the same way, invokes the same callbacks and leaves the state where
    the first click put it. *)
Theorem onClick_twice p st args st' calls :
  onClick p st args = Ok (st', calls) →
  onClick p st' args = Ok (st', calls).
Proof.
  unfold onClick.
  destruct (onClick_prop p) as [cb|]; [|by intros [= <- <-]].
  destruct (children p) as [tokens|]; [|done].
  destruct (inRange args (field_props tokens) (range p)) as [[|]|];
    [| |done]; by intros [= <- <-].
Qed.

Lemma onClick_twice_witness :
  onClick token_at_origin
    {| colorMap := getLimitNeighbors (Some (coord 1 0 (-1))) 1 |}
    (coord 1 0 (-1))
  = Ok ({| colorMap := getLimitNeighbors (Some (coord 1 0 (-1))) 1 |},
        [Invoke (Fn 0) (coord 1 0 (-1))]).
Proof.
  apply (onClick_twice token_at_origin {| colorMap := Some ∅ |}).
  by vm_compute.
Defined.

End rendering.

(** * The outline and the disk around the origin *)
Section outline_disk.
Import HexGrid.

(** The outline of a grid with non-negative levels is the disk of range
    [levels] around the origin: a cell is rendered exactly when the range
    query around (0,0,0) with that range produces its key. *)
Theorem outline_is_disk_around_origin l st m x y z :
  outline l = true → colorMap st = Some m → 0 ≤ levels l →
  ∃ hexes, _getGrid l st = Ok (Some hexes)
           ∧ ((∃ h, h ∈ hexes ∧ hex_x h = x ∧ hex_y h = y ∧ hex_z h = z) ↔
              key_of (coord x y z) ∈ disk_keys (coord 0 0 0) (levels l)).
Proof.
  intros Hout Hm Hl. eexists. split; [by apply _getGrid_defined|].
  rewrite disk_keys_coord. split.
  - intros (h & (x' & y' & Hx & Hy & Hz & ->)%elem_of_grid_hexes
              & <- & <- & <-). simpl. lia.
  - intros Hin.
    eexists. split; [apply elem_of_grid_hexes; exists x, y|].
    + split_and!; [lia..|reflexivity].
    + simpl. split_and!; [done..|lia].
Qed.

Lemma outline_is_disk_around_origin_witness :
  ∃ hexes,
    _getGrid {| levels := 2; outline := true; cellSize := 1 |}
             {| colorMap := Some ∅ |} = Ok (Some hexes)
    ∧ ((∃ h, h ∈ hexes ∧ hex_x h = 2 ∧ hex_y h = -2 ∧ hex_z h = 0) ↔
       key_of (coord 2 (-2) 0)
         ∈ disk_keys (coord 0 0 0)
             (levels {| levels := 2; outline := true; cellSize := 1 |})).
Proof.
  apply (outline_is_disk_around_origin
           {| levels := 2; outline := true; cellSize := 1 |}
           {| colorMap := Some ∅ |} ∅); [reflexivity..|by vm_compute].
Defined.

End outline_disk.

(** * Grids without a single token *)
Section children_shapes.
Import HexGrid.

Lemma onClick_without_single_token_witness :
  onClick {| colorMap_prop := ∅; range := 1; onClick_prop := Some (Fn 0);
             onMouseOver_prop := None; onMouseOut_prop := None;
             children := Some (ElementArray
                                 [XYZ (JNum 0) (JNum 0) (JNum 0);
                                  XYZ (JNum 1) (JNum (-1)) (JNum 0)]) |}
          {| colorMap := Some ∅ |} (coord 0 0 0)
  = TypeError.
Proof.
  apply (onClick_without_single_token _ _ _ (Fn 0)); [reflexivity|].
  right. eexists. reflexivity.
Defined.

End children_shapes.

(** * The code in double arithmetic *)
Section double_arithmetic.

Lemma round_exact n : Z.abs n < 2 ^ 53 → Double.round n = n.
Proof.
  intros Hn. unfold Double.round.
  assert (Z.log2 (Z.abs n) - 52 ≤ 0) as He.
  { destruct (decide (Z.abs n = 0)) as [->|Hne]; [done|].
    assert (Z.log2 (Z.abs n) < 53); [|lia].
    apply Z.log2_lt_pow2; lia. }
  by rewrite (proj2 (Z.leb_le _ _) He).
Qed.

Lemma add_exact a b :
  Z.abs (a + b) < 2 ^ 53 → Double.add (JNum a) (JNum b) = JNum (a + b).
Proof. intros H. unfold Double.add. simpl. by rewrite round_exact. Qed.

Lemma sub_exact a b :
  Z.abs (a - b) < 2 ^ 53 → Double.sub (JNum a) (JNum b) = JNum (a - b).
Proof. intros H. unfold Double.sub. simpl. by rewrite round_exact. Qed.

(** Where every intermediate magnitude stays below 2^53, the range query
    computes in doubles what it computes on the exact integers. *)
Lemma double_getNearGrids_exact cx cy cz r :
  exact_range cx cy r →
  HexGridDouble._getNearGrids (coord cx cy cz) r
  = HexGrid._getNearGrids (coord cx cy cz) r.
Proof.
  intros (Hr & Hx & Hy & Hz).
  unfold HexGridDouble._getNearGrids, HexGrid._getNearGrids.
  cbn [field_x field_y field_z coord x_of y_of z_of].
  rewrite (round_exact (r + 1)) by lia. f_equal.
  apply Forall_bind_ext, Forall_forall. intros dx Hdx%elem_of_for_lt.
  rewrite (round_exact (- dx - r)), (round_exact (- dx + r)) by lia.
  rewrite (round_exact (Z.min r (- dx + r) + 1)) by lia.
  apply Forall_bind_ext, Forall_forall. intros dy Hdy%elem_of_for_lt.
  rewrite !add_exact by lia.
  unfold Double.neg. cbn [ToNumber].
  rewrite (sub_exact (- cx) cy) by lia.
  rewrite (sub_exact (- cx - cy) dx) by lia.
  rewrite (sub_exact (- cx - cy - dx) dy) by lia.
  reflexivity.
Qed.

Lemma double_neighbours_exact x y z :
  exact_cell x y z →
  HexGridV1Double._getNearGrids (coord x y z)
  = HexGridV1._getNearGrids (coord x y z).
Proof.
  intros (Hx & Hy & Hz).
  unfold HexGridV1Double._getNearGrids, HexGridV1._getNearGrids.
  cbn [field_x field_y field_z coord x_of y_of z_of].
  rewrite !add_exact, !sub_exact by lia. reflexivity.
Qed.

Lemma double_getLimitNeighbors_exact cx cy cz r :
  exact_range cx cy r →
  HexGridDouble.getLimitNeighbors (Some (coord cx cy cz)) r
  = HexGrid.getLimitNeighbors (Some (coord cx cy cz)) r.
Proof.
  intros Hc. unfold HexGridDouble.getLimitNeighbors, HexGrid.getLimitNeighbors.
  by rewrite double_getNearGrids_exact.
Qed.

Lemma double_disk_keys_exact cx cy cz r :
  exact_range cx cy r →
  double_disk_keys (coord cx cy cz) r = disk_keys (coord cx cy cz) r.
Proof.
  intros Hc. unfold double_disk_keys, disk_keys.
  by rewrite double_getLimitNeighbors_exact.
Qed.

(** C2, within the exact range: for a center on the plane and a range
    [0 <= r < 2^52] with [|c.x| + r], [|c.y| + r] and [|c.z| + r] below
    2^53, the key of a cube coordinate [p] is among the keys of the
    colour map that the code builds exactly when the hex distance from
    the center to [p] is at most the range. *)
Theorem double_range_query_iff_hexDistance cx cy cz px py pz r :
  cx + cy + cz = 0 → px + py + pz = 0 → exact_range cx cy r →
  ∃ m, HexGridDouble.getLimitNeighbors (Some (coord cx cy cz)) r = Some m
       ∧ (key_of (coord px py pz) ∈ dom m ↔
          hexDistance (cx, cy, cz) (px, py, pz) ≤ r).
Proof.
  intros Hc Hp Hr. rewrite double_getLimitNeighbors_exact by done.
  apply range_query_iff_hexDistance; [done..|]. by destruct Hr as [[? _] _].
Qed.

Lemma double_range_query_iff_hexDistance_witness :
  ∃ m, HexGridDouble.getLimitNeighbors (Some (coord 0 0 0)) 1 = Some m
       ∧ (key_of (coord 1 0 (-1)) ∈ dom m ↔
          hexDistance (0, 0, 0) (1, 0, -1) ≤ 1).
Proof.
  apply double_range_query_iff_hexDistance; [lia..|].
  unfold exact_range. lia.
Defined.

(** C2 fails as stated: around the center (2^53, 0, -2^53) the range
    query with range 3 produces the key of the cube coordinate
    (2^53 + 4, 0, -(2^53 + 4)), which is at hex distance 4. *)
Lemma range_query_beyond_range_at_2_53 :
  2 ^ 53 + 0 + - 2 ^ 53 = 0
  ∧ (2 ^ 53 + 4) + 0 + - (2 ^ 53 + 4) = 0
  ∧ 0 ≤ 3
  ∧ ∃ m, HexGridDouble.getLimitNeighbors
           (Some (coord (2 ^ 53) 0 (- 2 ^ 53))) 3 = Some m
         ∧ key_of (coord (2 ^ 53 + 4) 0 (- (2 ^ 53 + 4))) ∈ dom m
         ∧ ¬ hexDistance (2 ^ 53, 0, - 2 ^ 53)
                         (2 ^ 53 + 4, 0, - (2 ^ 53 + 4)) ≤ 3.
Proof.
  split_and!; [done..|].
  eexists. split; [reflexivity|]. split.
  - by vm_compute.
  - by vm_compute.
Qed.

(** C3, within the exact range: the set of distinct keys produced by the
    code contains the key of the center and has exactly
    [3*r*r + 3*r + 1] elements. *)
Theorem double_range_query_center_and_size cx cy cz r :
  cx + cy + cz = 0 → exact_range cx cy r →
  ∃ m, HexGridDouble.getLimitNeighbors (Some (coord cx cy cz)) r = Some m
       ∧ key_of (coord cx cy cz) ∈ dom m
       ∧ Z.of_nat (size (dom m)) = 3 * r * r + 3 * r + 1.
Proof.
  intros Hc Hr. rewrite double_getLimitNeighbors_exact by done.
  apply range_query_center_and_size; [done|]. by destruct Hr as [[? _] _].
Qed.

Lemma double_range_query_center_and_size_witness :
  ∃ m, HexGridDouble.getLimitNeighbors (Some (coord 2 (-3) 1)) 2 = Some m
       ∧ key_of (coord 2 (-3) 1) ∈ dom m
       ∧ Z.of_nat (size (dom m)) = 3 * 2 * 2 + 3 * 2 + 1.
Proof.
  apply double_range_query_center_and_size; [lia|].
  unfold exact_range. lia.
Defined.

(** C3 fails as stated: around the center (2^53, 0, -2^53) the range
    query with range 1 produces five distinct keys, not seven. *)
Lemma range_query_size_at_2_53 :
  2 ^ 53 + 0 + - 2 ^ 53 = 0
  ∧ 0 ≤ 1
  ∧ ∃ m, HexGridDouble.getLimitNeighbors
           (Some (coord (2 ^ 53) 0 (- 2 ^ 53))) 1 = Some m
         ∧ size (dom m) = 5%nat
         ∧ Z.of_nat (size (dom m)) ≠ 3 * 1 * 1 + 3 * 1 + 1.
Proof.
  split_and!; [done..|].
  eexists. split; [reflexivity|].
  assert (size (dom (foldl (λ colorMap grid,
                  <[key_of grid := HexGrid.highlight]> colorMap)
                (∅ : gmap string string)
                (HexGridDouble._getNearGrids
                   (coord (2 ^ 53) 0 (- 2 ^ 53)) 1))) = 5%nat) as Hsize
    by (by vm_compute).
  split; [exact Hsize|]. rewrite Hsize. done.
Qed.

(** C5, within the exact range: for a cell whose coordinates are below
    2^53 - 1 in magnitude, the code returns the six coordinates
    (x-1,y,z+1), (x-1,y+1,z), (x,y-1,z+1), (x+1,y-1,z), (x,y+1,z-1),
    (x+1,y,z-1) in this order, each at hex distance exactly 1. *)
Theorem double_neighbors6_order_and_distance x y z :
  exact_cell x y z →
  HexGridV1Double._getNearGrids (coord x y z)
  = [ coord (x - 1) y (z + 1); coord (x - 1) (y + 1) z;
      coord x (y - 1) (z + 1); coord (x + 1) (y - 1) z;
      coord x (y + 1) (z - 1); coord (x + 1) y (z - 1) ]
  ∧ Forall (λ q, hexDistance (x, y, z) q = 1)
      [ (x - 1, y, z + 1); (x - 1, y + 1, z); (x, y - 1, z + 1);
        (x + 1, y - 1, z); (x, y + 1, z - 1); (x + 1, y, z - 1) ].
Proof.
  intros Hc. rewrite double_neighbours_exact by done.
  apply neighbors6_order_and_distance.
Qed.

Lemma double_neighbors6_order_and_distance_witness :
  HexGridV1Double._getNearGrids (coord 0 0 0)
  = [ coord (0 - 1) 0 (0 + 1); coord (0 - 1) (0 + 1) 0;
      coord 0 (0 - 1) (0 + 1); coord (0 + 1) (0 - 1) 0;
      coord 0 (0 + 1) (0 - 1); coord (0 + 1) 0 (0 - 1) ]
  ∧ Forall (λ q, hexDistance (0, 0, 0) q = 1)
      [ (0 - 1, 0, 0 + 1); (0 - 1, 0 + 1, 0); (0, 0 - 1, 0 + 1);
        (0 + 1, 0 - 1, 0); (0, 0 + 1, 0 - 1); (0 + 1, 0, 0 - 1) ].
Proof.
  apply double_neighbors6_order_and_distance. unfold exact_cell. lia.
Defined.

(** C5 fails as stated: at the cell (2^53, 0, -2^53) the sum x + 1 and
    the difference z - 1 round back to x and z, so the sixth coordinate
    returned is the cell itself, at hex distance 0, and not
    (x + 1, y, z - 1). *)
Lemma neighbors6_at_2_53 :
  HexGridV1Double._getNearGrids (coord (2 ^ 53) 0 (- 2 ^ 53)) !! 5%nat
  = Some (coord (2 ^ 53) 0 (- 2 ^ 53))
  ∧ coord (2 ^ 53) 0 (- 2 ^ 53) ≠ coord (2 ^ 53 + 1) 0 (- 2 ^ 53 - 1)
  ∧ hexDistance (2 ^ 53, 0, - 2 ^ 53) (2 ^ 53, 0, - 2 ^ 53) ≠ 1.
Proof. split_and!; by vm_compute. Qed.

(** C9, within the exact range: for a center on the plane, every entry
    that the range query returns and every one of the six neighbours is
    an integer coordinate with [x + y + z = 0]. *)
Theorem double_cube_invariant_preserved cx cy cz r :
  cx + cy + cz = 0 → exact_range cx cy r → exact_cell cx cy cz →
  Forall (λ o, ∃ a b c, o = coord a b c ∧ a + b + c = 0)
    (HexGridDouble._getNearGrids (coord cx cy cz) r)
  ∧ Forall (λ o, ∃ a b c, o = coord a b c ∧ a + b + c = 0)
      (HexGridV1Double._getNearGrids (coord cx cy cz)).
Proof.
  intros Hc Hr Hcell.
  rewrite double_getNearGrids_exact, double_neighbours_exact by done.
  by apply cube_invariant_preserved.
Qed.

Lemma double_cube_invariant_preserved_witness :
  Forall (λ o, ∃ a b c, o = coord a b c ∧ a + b + c = 0)
    (HexGridDouble._getNearGrids (coord 1 (-1) 0) 2)
  ∧ Forall (λ o, ∃ a b c, o = coord a b c ∧ a + b + c = 0)
      (HexGridV1Double._getNearGrids (coord 1 (-1) 0)).
Proof.
  apply double_cube_invariant_preserved;
    [lia|unfold exact_range; lia|unfold exact_cell; lia].
Defined.

(** C9 fails as stated: around the center (2^53, 0, -2^53), which is on
    the plane, the range query with range 1 returns (2^53, 1, -2^53),
    whose coordinates sum to 1. *)
Lemma cube_invariant_broken_at_2_53 :
  2 ^ 53 + 0 + - 2 ^ 53 = 0
  ∧ coord (2 ^ 53) 1 (- 2 ^ 53)
      ∈ HexGridDouble._getNearGrids (coord (2 ^ 53) 0 (- 2 ^ 53)) 1
  ∧ 2 ^ 53 + 1 + - 2 ^ 53 ≠ 0.
Proof.
  split_and!; [done| |done].
  assert (HexGridDouble._getNearGrids (coord (2 ^ 53) 0 (- 2 ^ 53)) 1 !! 4%nat
          = Some (coord (2 ^ 53) 1 (- 2 ^ 53))) as Hl by (by vm_compute).
  eapply list_elem_of_lookup_2. exact Hl.
Qed.

(** Reachability is symmetric within the exact range: between two cube
    coordinates, one is highlighted around the other exactly when the
    other is highlighted around the one. *)
Theorem double_disk_keys_symmetric cx cy cz px py pz r :
  cx + cy + cz = 0 → px + py + pz = 0 →
  exact_range cx cy r → exact_range px py r →
  key_of (coord px py pz) ∈ double_disk_keys (coord cx cy cz) r ↔
  key_of (coord cx cy cz) ∈ double_disk_keys (coord px py pz) r.
Proof.
  intros Hc Hp Hrc Hrp. rewrite !double_disk_keys_exact by done.
  by apply disk_keys_symmetric.
Qed.

Lemma double_disk_keys_symmetric_witness :
  key_of (coord 2 (-1) (-1)) ∈ double_disk_keys (coord 0 0 0) 2 ↔
  key_of (coord 0 0 0) ∈ double_disk_keys (coord 2 (-1) (-1)) 2.
Proof.
  apply double_disk_keys_symmetric; [lia..| |]; unfold exact_range; lia.
Defined.

(** The range query commutes with translation by an on-plane vector,
    when the center and the translated center are in the exact range. *)
Theorem double_disk_keys_translate cx cy cz px py pz vx vy vz r :
  vx + vy + vz = 0 →
  exact_range cx cy r → exact_range (cx + vx) (cy + vy) r →
  key_of (coord (px + vx) (py + vy) (pz + vz))
    ∈ double_disk_keys (coord (cx + vx) (cy + vy) (cz + vz)) r ↔
  key_of (coord px py pz) ∈ double_disk_keys (coord cx cy cz) r.
Proof.
  intros Hv Hrc Hrv. rewrite !double_disk_keys_exact by done.
  by apply disk_keys_translate.
Qed.

Lemma double_disk_keys_translate_witness :
  key_of (coord (1 + 3) (0 + (-1)) (-1 + (-2)))
    ∈ double_disk_keys (coord (0 + 3) (0 + (-1)) (0 + (-2))) 1 ↔
  key_of (coord 1 0 (-1)) ∈ double_disk_keys (coord 0 0 0) 1.
Proof.
  apply double_disk_keys_translate; [lia| |]; unfold exact_range; lia.
Defined.

(** Two steps of range [r] stay within range [2 * r], when the middle
    cell is in the exact range for [r] and the center for [2 * r]. *)
Theorem double_disk_keys_two_steps cx cy cz tx ty tz px py pz r :
  exact_range tx ty r → exact_range cx cy (2 * r) →
  key_of (coord tx ty tz) ∈ double_disk_keys (coord cx cy cz) r →
  key_of (coord px py pz) ∈ double_disk_keys (coord tx ty tz) r →
  key_of (coord px py pz) ∈ double_disk_keys (coord cx cy cz) (2 * r).
Proof.
  intros Hrt Hrc2.
  assert (exact_range cx cy r) as Hrc by (unfold exact_range in *; lia).
  rewrite !double_disk_keys_exact by done.
  apply disk_keys_two_steps.
Qed.

Lemma double_disk_keys_two_steps_witness :
  key_of (coord 2 0 (-2)) ∈ double_disk_keys (coord 0 0 0) (2 * 1).
Proof.
  apply (double_disk_keys_two_steps 0 0 0 1 0 (-1) 2 0 (-2) 1);
    try (unfold exact_range; lia); by vm_compute.
Defined.



(** A click in the earlier revision on a cube coordinate whose six
    neighbours are computed exactly, with a callback configured, is
    always accepted: the callback is invoked with the clicked cell and
    the new colour map has six keys, those of the cells at hex distance
    exactly 1; the clicked cell itself is not among them. *)
Theorem double_v1_click_highlights_ring cb st x y z :
  x + y + z = 0 → exact_cell x y z →
  ∃ m, HexGridV1Double.onClick (Some cb) st (coord x y z)
       = (Some m, [Invoke cb (coord x y z)])
       ∧ size (dom m) = 6%nat
       ∧ (key_of (coord x y z) ∉ dom m)
       ∧ ∀ px py pz, px + py + pz = 0 →
           (key_of (coord px py pz) ∈ dom m ↔
            hexDistance (x, y, z) (px, py, pz) = 1).
Proof.
  intros Hc Hcell.
  assert (HexGridV1Double.onClick (Some cb) st (coord x y z)
          = HexGridV1.onClick (Some cb) st (coord x y z)) as ->.
  { unfold HexGridV1Double.onClick, HexGridV1.onClick.
    by rewrite double_neighbours_exact. }
  by apply v1_click_highlights_ring.
Qed.

Lemma double_v1_click_highlights_ring_witness :
  ∃ m, HexGridV1Double.onClick (Some (Fn 0)) None (coord 1 (-1) 0)
       = (Some m, [Invoke (Fn 0) (coord 1 (-1) 0)])
       ∧ size (dom m) = 6%nat
       ∧ (key_of (coord 1 (-1) 0) ∉ dom m)
       ∧ ∀ px py pz, px + py + pz = 0 →
           (key_of (coord px py pz) ∈ dom m ↔
            hexDistance (1, -1, 0) (px, py, pz) = 1).
Proof.
  apply double_v1_click_highlights_ring; [lia|unfold exact_cell; lia].
Defined.

(** For a center on the plane whose neighbours are computed exactly, the
    keys of the range query with range 1 are the center's key together
    with the keys of the six neighbours of the earlier revision. *)
Theorem double_disk_of_range_1_is_center_and_ring x y z :
  x + y + z = 0 → exact_cell x y z →
  double_disk_keys (coord x y z) 1
  = {[ key_of (coord x y z) ]}
    ∪ list_to_set (key_of <$> HexGridV1Double._getNearGrids (coord x y z)).
Proof.
  intros Hc Hcell.
  assert (exact_range x y 1) as Hr.
  { destruct Hcell as (Hx & Hy & Hz). unfold exact_range.
    replace (x + y) with (- z) by lia. rewrite Z.abs_opp. lia. }
  rewrite double_disk_keys_exact, double_neighbours_exact by done.
  by apply disk_of_range_1_is_center_and_ring.
Qed.

Lemma double_disk_of_range_1_is_center_and_ring_witness :
  double_disk_keys (coord 2 (-3) 1) 1
  = {[ key_of (coord 2 (-3) 1) ]}
    ∪ list_to_set
        (key_of <$> HexGridV1Double._getNearGrids (coord 2 (-3) 1)).
Proof.
  apply double_disk_of_range_1_is_center_and_ring;
    [lia|unfold exact_cell; lia].
Defined.

End double_arithmetic.
